(** * hermes-shm smart pointers: [smart_ptr_base.h]

    A shallow embedding of
    [include/hermes_shm/data_structures/smart_ptr/smart_ptr_base.h]:
    the two storage backends [_RefShm] and [_RefNoShm], the wrapper
    [smart_ptr_base<T, unique, destructable>] built over one of them, and
    the flavours [mptr], [Ref] and [uptr].

    Left out: the operators that [SHM_SERIALIZE_DESERIALIZE_OPS] generates and
    the piecewise builders ([make_piecewise], [make_ref_piecewise]), which
    rest on macros and argument-pack utilities of other headers.

    Conventions of the embedding.
    - A raw pointer [T*] is an address in [Z]; [nullptr] is [0].
    - A data member that no constructor has written yet holds an
      indeterminate value ([Indeterminate]); reading one for a decision is
      undefined behaviour ([Undefined]).
    - Copying a member copies its state, written or not.
    - A member function that mutates [*this] or the shared memory returns
      the new object and the new memory. *)

From stdpp Require Import base option gmap list.
From Stdlib Require Import ZArith Lia.

Local Open Scope Z_scope.

(** ** Indeterminate members and undefined behaviour *)

(** The content of a data member: written ([Val]) or never written. *)
Inductive cell (A : Type) : Type :=
| Indeterminate
| Val (a : A).
Arguments Indeterminate {A}.
Arguments Val {A} a.

(** The result of running a member function. *)
Inductive outcome (A : Type) : Type :=
| Done (a : A)
| Undefined.
Arguments Done {A} a.
Arguments Undefined {A}.

#[global] Instance outcome_ret : MRet outcome := fun A a => Done a.
#[global] Instance outcome_bind : MBind outcome := fun A B f m =>
  match m with
  | Done a => f a
  | Undefined => Undefined
  end.
#[global] Instance outcome_fmap : FMap outcome := fun A B f m =>
  match m with
  | Done a => Done (f a)
  | Undefined => Undefined
  end.

(** Reading a member for its value. *)
Definition read {A : Type} (c : cell A) : outcome A :=
  match c with
  | Val a => Done a
  | Indeterminate => Undefined
  end.

#[global] Instance cell_eq_dec {A : Type} `{EqDecision A} : EqDecision (cell A).
Proof. solve_decision. Defined.

#[global] Instance outcome_eq_dec {A : Type} `{EqDecision A} : EqDecision (outcome A).
Proof. solve_decision. Defined.

(** ** The element type

    [T] is a template parameter.  What the header uses of it is its
    constructor (through the forwarded [Args&&...]) and its [std::hash<T>]. *)

Class Constructible (T : Type) := {
  Args : Type;
  construct : Args -> T
}.

Definition size_t := Z.

Class Hashable (T : Type) := std_hash : T -> size_t.

(** ** The allocator and the registry (collaborators) *)

Module Alloc.

Definition ptr := Z.
Definition nullptr : ptr := 0.
Definition AllocatorId := Z.

(** Modelled from the spec: the [Allocator] class of
    [hermes_shm/memory/allocator/allocator.h], which is not part of this
    header.  An allocator is identified by its id and serves one segment,
    mapped at [segment_base] in this process. *)
Record Allocator := {
  allocator_id : AllocatorId;
  segment_base : ptr
}.

#[global] Instance Allocator_eq_dec : EqDecision Allocator.
Proof. solve_decision. Defined.

(** Modelled from the spec: [id() -> AllocatorId]. *)
Definition GetId (a : Allocator) : AllocatorId := allocator_id a.

(** Modelled from the spec: [convert(rawPointer) -> locator]; the offset of
    a locator is relative to the segment. *)
Definition Convert (a : Allocator) (p : ptr) : Z := p - segment_base a.

(** Modelled from the spec: the conversion back, from a segment-relative
    offset to a raw pointer of this process. *)
Definition ConvertOffset (a : Allocator) (off : Z) : ptr := segment_base a + off.

(** Modelled from the spec: the process-wide registry
    ([HERMES_MEMORY_REGISTRY], [hermes_shm/memory/memory_registry.h]):
    [defaultAllocator()] and the resolution of an allocator id. *)
Record MemoryRegistry := {
  allocators : gmap AllocatorId Allocator;
  default_allocator : Allocator
}.

Definition GetDefaultAllocator (reg : MemoryRegistry) : Allocator :=
  default_allocator reg.

Definition GetAllocator (reg : MemoryRegistry) (id : AllocatorId) : option Allocator :=
  allocators reg !! id.

(** Modelled from the spec: the strategy by which an allocator picks the
    address of a new object is outside the core; it is a parameter. *)
Class Placement := place : Allocator -> gset ptr -> ptr.

(** One call of [FreePtr]: the allocator asked, the pointer passed, and
    whether that pointer held a live object at the time of the call. *)
Record free_event := {
  freed_by : AllocatorId;
  freed_ptr : ptr;
  was_live : bool
}.

#[global] Instance free_event_eq_dec : EqDecision free_event.
Proof. solve_decision. Defined.

Section Memory.
Context {T : Type} `{Constructible T} `{Placement}.

(** Modelled from the spec: the allocators' memory as the core observes it,
    that is the live objects by address and the calls of [FreePtr] so far,
    oldest first. *)
Record Memory := {
  objects : gmap ptr T;
  free_log : list free_event
}.

(** Modelled from the spec:
    [allocateConstructObjects<T>(count, outLocator, args...) -> rawPointer],
    called with count 1: storage for one object, constructed from [args]. *)
Definition AllocateConstructObjs (a : Allocator) (args : Args) (m : Memory)
  : ptr * Memory :=
  let p := place a (dom (objects m)) in
  (p, {| objects := <[p := construct args]> (objects m);
         free_log := free_log m |}).

(** Modelled from the spec: [constructObject<T>(storageRef, args...)]: the
    storage exists already, only the constructor runs. *)
Definition ConstructObj (p : ptr) (args : Args) (m : Memory) : Memory :=
  {| objects := <[p := construct args]> (objects m);
     free_log := free_log m |}.

(** Modelled from the spec: [freePointer<T>(rawPointer)]: runs the destructor
    and frees the storage.  The call is recorded. *)
Definition FreePtr (a : Allocator) (p : ptr) (m : Memory) : Memory :=
  {| objects := delete p (objects m);
     free_log := free_log m ++
       [{| freed_by := GetId a; freed_ptr := p;
           was_live := bool_decide (is_Some (objects m !! p)) |}] |}.

(** The allocator's free counter. *)
Definition free_count (m : Memory) : nat := length (free_log m).

(** No call of [FreePtr] was passed a pointer without a live object. *)
Definition no_double_free (m : Memory) : bool :=
  forallb was_live (free_log m).

End Memory.

Arguments Memory T : clear implicits.

(** Modelled from the spec: a position-independent locator,
    [TypedPointer<T>] = (allocator id, segment-relative offset).  [TypedAtomicPointer<T>] has
    the same two members, its offset atomically updatable; the header
    treats both shapes alike. *)
Inductive PointerShape := Plain | Atomic.

Record TypedPointer := {
  shape : PointerShape;
  allocator_id_ : AllocatorId;
  off_ : Z
}.

#[global] Instance PointerShape_eq_dec : EqDecision PointerShape.
Proof. solve_decision. Defined.

#[global] Instance TypedPointer_eq_dec : EqDecision TypedPointer.
Proof. solve_decision. Defined.

(** Modelled from the spec: the resolution context [ShmDeserialize<T>],
    a resolved raw pointer and the allocator it belongs to. *)
Record ShmDeserialize := {
  header_ : ptr;
  alloc_ : Allocator
}.

(** Modelled from the spec: the constructor [ShmDeserialize<T>(locator)] of
    [shm_archive.h]: the locator is resolved through the registry.  An id
    the registry does not know resolves to nothing. *)
Definition ShmDeserialize_of_pointer (reg : MemoryRegistry) (ar : TypedPointer)
  : outcome ShmDeserialize :=
  match GetAllocator reg (allocator_id_ ar) with
  | Some a => Done {| header_ := ConvertOffset a (off_ ar); alloc_ := a |}
  | None => Undefined
  end.

End Alloc.

Import Alloc.

(** ** The backend interface

    [smart_ptr_base] is written against whichever of [_RefShm<T, D>] and
    [_RefNoShm<T, D>] the macro [MAKE_REF_SHM_OR_NO_SHM] selects for [T]
    at build time.  The members it calls form this interface; the template
    parameter [destructable] is only read by [shm_destroy]. *)

Class RefBackend (R : Type) := {
  World : Type;      (* the memory the backend acts on *)
  InitArgs : Type;   (* the argument lists [shm_init] accepts *)
  ObjRef : Type;     (* a live object passed as [T &] *)
  Pointee : Type;    (* what [*get()] yields *)
  Handle : Type;     (* what [get()] yields *)
  ref_default : R;
  ref_shm_init : MemoryRegistry -> InitArgs -> R -> World -> R * World;
  ref_get : R -> Handle;
  ref_deref : R -> World -> outcome Pointee;
  ref_shm_strong_copy : R -> R -> outcome R;
  ref_shm_deserialize : R -> ShmDeserialize -> R;
  ref_shm_deserialize_obj : R -> ObjRef -> R;
  ref_shm_serialize : PointerShape -> R -> outcome TypedPointer;
  ref_shm_destroy : bool -> R -> World -> outcome (R * World)
}.

(** ** [_RefNoShm<T, destructable>]: when T is not a SHM object *)

Module _RefNoShm.

Record t := {
  obj_ : cell ptr;          (* T *obj_ *)
  alloc_ : cell Allocator   (* Allocator *alloc_ *)
}.

#[global] Instance t_eq_dec : EqDecision t.
Proof. solve_decision. Defined.

(** Default initialisation writes neither member. *)
Definition default : t := {| obj_ := Indeterminate; alloc_ := Indeterminate |}.

Section Ops.
Context {T : Type} `{Constructible T} `{Placement}.

(** The three overloads of [shm_init], told apart by their arguments;
    a [ShmArchive<T> &] is the address of the storage it reserves. *)
Inductive init_args :=
| InitDefault (args : Args)
| InitAlloc (alloc : Allocator) (args : Args)
| InitArchive (obj : ptr) (alloc : Allocator) (args : Args).

(** SHM constructor. Default non-default allocator *)
Definition shm_init_alloc (alloc : Allocator) (args : Args) (this : t) (m : Memory T)
  : t * Memory T :=
  let '(p, m') := AllocateConstructObjs alloc args m in
  ({| obj_ := Val p; alloc_ := Val alloc |}, m').

(** SHM constructor. Default allocator. *)
Definition shm_init_default (reg : MemoryRegistry) (args : Args) (this : t) (m : Memory T)
  : t * Memory T :=
  let alloc := GetDefaultAllocator reg in
  shm_init_alloc alloc args this m.

(** SHM constructor. Header is preallocated. *)
Definition shm_init_archive (obj : ptr) (alloc : Allocator) (args : Args)
  (this : t) (m : Memory T) : t * Memory T :=
  ({| obj_ := Val obj; alloc_ := Val alloc |}, ConstructObj obj args m).

Definition shm_init (reg : MemoryRegistry) (ia : init_args) (this : t) (m : Memory T)
  : t * Memory T :=
  match ia with
  | InitDefault args => shm_init_default reg args this m
  | InitAlloc alloc args => shm_init_alloc alloc args this m
  | InitArchive obj alloc args => shm_init_archive obj alloc args this m
  end.

(** Gets a pointer to the internal object *)
Definition get (this : t) : cell ptr := obj_ this.

(** [*get()]: the object the stored pointer designates. *)
Definition deref (this : t) (m : Memory T) : outcome T :=
  p ← read (get this);
  match objects m !! p with
  | Some v => Done v
  | None => Undefined
  end.

(** Internal copy operation *)
Definition shm_strong_copy (this other : t) : t :=
  {| obj_ := obj_ other; alloc_ := alloc_ other |}.

(** Deserialize from a ShmDeserialize. *)
Definition shm_deserialize (this : t) (ar : ShmDeserialize) : t :=
  {| obj_ := Val (header_ ar); alloc_ := Val (Alloc.alloc_ ar) |}.

(** Deserialize from an object.  The allocator is not written:
    alloc is not valid in this mode. *)
Definition shm_deserialize_obj (this : t) (ar : ptr) : t :=
  {| obj_ := Val ar; alloc_ := alloc_ this |}.

(** Serialize into a pointer type *)
Definition shm_serialize (sh : PointerShape) (this : t) : outcome TypedPointer :=
  a ← read (alloc_ this);
  p ← read (obj_ this);
  Done {| shape := sh; allocator_id_ := GetId a; off_ := Convert a p |}.

(** Destroy the data pointed by this ref *)
Definition shm_destroy (destructable : bool) (this : t) (m : Memory T)
  : outcome (t * Memory T) :=
  if destructable then
    p ← read (obj_ this);
    if decide (p ≠ nullptr) then
      a ← read (alloc_ this);
      Done (this, FreePtr a p m)
    else Done (this, m)
  else Done (this, m).

#[global] Instance backend : RefBackend t := {|
  World := Memory T;
  InitArgs := init_args;
  ObjRef := ptr;
  Pointee := T;
  Handle := cell ptr;
  ref_default := default;
  ref_shm_init := shm_init;
  ref_get := get;
  ref_deref := deref;
  ref_shm_strong_copy := fun this other => Done (shm_strong_copy this other);
  ref_shm_deserialize := shm_deserialize;
  ref_shm_deserialize_obj := shm_deserialize_obj;
  ref_shm_serialize := shm_serialize;
  ref_shm_destroy := shm_destroy
|}.

End Ops.

End _RefNoShm.

(** ** [_RefShm<T, destructable>]: when T is a SHM object

    Such a [T] brings its own header, serialisation and destruction
    (the container macros of [shm_macros.h], not part of this header).
    The backend only forwards to them, so they form an interface of [T]. *)

Class ShmContainer (C : Type) := {
  ContainerWorld : Type;
  ContainerArgs : Type;
  (* T(args...), run in place by Allocator::ConstructObj<T> *)
  container_construct : ContainerArgs -> ContainerWorld -> C * ContainerWorld;
  GetShmDeserialize : C -> ShmDeserialize;
  (* T::shm_deserialize, called on the inline storage, constructed or not *)
  container_shm_deserialize : cell C -> ShmDeserialize -> C;
  container_shm_serialize : PointerShape -> C -> TypedPointer;
  SetHeaderOwned : C -> C;
  UnsetHeaderOwned : C -> C;
  container_shm_destroy : C -> ContainerWorld -> C * ContainerWorld
}.

Module _RefShm.

Section Ops.
Context {C : Type} `{ShmContainer C}.

(** [char obj_[sizeof(T)]]: the object is held inline. *)
Record t := { obj_ : cell C }.

Definition default : t := {| obj_ := Indeterminate |}.

(** SHM Constructor. *)
Definition shm_init (reg : MemoryRegistry) (args : ContainerArgs) (this : t)
  (s : ContainerWorld) : t * ContainerWorld :=
  let '(c, s') := container_construct args s in
  ({| obj_ := Val c |}, s').

(** Gets a pointer to the internal object *)
Definition get (this : t) : cell C := obj_ this.

Definition deref (this : t) (s : ContainerWorld) : outcome C := read (get this).

(** Internal copy operation *)
Definition shm_strong_copy (this other : t) : outcome t :=
  o ← read (get other);
  Done {| obj_ := Val (container_shm_deserialize (get this) (GetShmDeserialize o)) |}.

(** Deserialize from a ShmDeserialize. *)
Definition shm_deserialize (this : t) (ar : ShmDeserialize) : t :=
  {| obj_ := Val (container_shm_deserialize (get this) ar) |}.

(** Deserialize from an object. *)
Definition shm_deserialize_obj (this : t) (ar : C) : t :=
  {| obj_ := Val (container_shm_deserialize (get this) (GetShmDeserialize ar)) |}.

(** Serialize into a pointer type *)
Definition shm_serialize (sh : PointerShape) (this : t) : outcome TypedPointer :=
  c ← read (get this);
  Done (container_shm_serialize sh c).

(** Destroy the data allocated by this pointer *)
Definition shm_destroy (destructable : bool) (this : t) (s : ContainerWorld)
  : outcome (t * ContainerWorld) :=
  c ← read (get this);
  let c1 := if destructable then SetHeaderOwned c else UnsetHeaderOwned c in
  let '(c2, s') := container_shm_destroy c1 s in
  Done ({| obj_ := Val c2 |}, s').

#[global] Instance backend : RefBackend t := {|
  World := ContainerWorld;
  InitArgs := ContainerArgs;
  ObjRef := C;
  Pointee := C;
  Handle := cell C;
  ref_default := default;
  ref_shm_init := shm_init;
  ref_get := get;
  ref_deref := deref;
  ref_shm_strong_copy := shm_strong_copy;
  ref_shm_deserialize := shm_deserialize;
  ref_shm_deserialize_obj := shm_deserialize_obj;
  ref_shm_serialize := shm_serialize;
  ref_shm_destroy := shm_destroy
|}.

End Ops.

Arguments t C : clear implicits.

End _RefShm.

(** ** [smart_ptr_base<T, unique, destructable>] *)

(** The two boolean template parameters of the wrapper. *)
Record flavour := {
  unique : bool;
  destructable : bool
}.

(** Mptr is non-unique and requires explicit destruction *)
Definition mptr : flavour := {| unique := false; destructable := true |}.

(** Refs are like mptr, but don't have a destructable header *)
Definition Ref : flavour := {| unique := false; destructable := false |}.

(** Uptr has a specific container owning the object *)
Definition uptr : flavour := {| unique := true; destructable := true |}.

Module smart_ptr_base.

(** The address of a wrapper object, as compared by [this != &other]. *)
Definition this_ptr := Z.

Section Ops.
Context {R : Type} `{RefBackend R}.

Record t := {
  obj_ : R;              (* The stored shared-memory object *)
  owner_ : cell bool     (* Whether the shared-memory object is owned *)
}.

(** Default constructor does nothing: [smart_ptr_base() = default], reached
    by default initialisation as in [PointerT ptr;] of [make_ptr_base]. *)
Definition default : t := {| obj_ := ref_default; owner_ := Indeterminate |}.

Section Flavoured.
Variable F : flavour.
Variable reg : MemoryRegistry.

(** Create the mptr contents *)
Definition shm_init (args : InitArgs) (this : t) (w : World) : t * World :=
  let '(o, w') := ref_shm_init reg args (obj_ this) w in
  ({| obj_ := o; owner_ := if unique F then Val true else owner_ this |}, w').

(** Explicit destructor *)
Definition shm_destroy (this : t) (w : World) : outcome (t * World) :=
  '(o, w') ← ref_shm_destroy (destructable F) (obj_ this) w;
  Done ({| obj_ := o; owner_ := owner_ this |}, w').

(** Destructor. [~smart_ptr_base()]; the wrapper object is gone afterwards,
    what remains is the memory. *)
Definition dtor (this : t) (w : World) : outcome World :=
  if unique F then
    b ← read (owner_ this);
    if b : bool then snd <$> shm_destroy this w else Done w
  else Done w.

(** Gets a pointer to the internal object; [operator->] is the same. *)
Definition get (this : t) : Handle := ref_get (obj_ this).

(** Dereference operator *)
Definition deref (this : t) (w : World) : outcome Pointee := ref_deref (obj_ this) w.

(** Internal move operation *)
Definition shm_strong_copy (this other : t) : outcome t :=
  o ← ref_shm_strong_copy (obj_ this) (obj_ other);
  Done {| obj_ := o; owner_ := if unique F then owner_ other else owner_ this |}.

(** Copy constructor (equivalent to move).  Its body calls the backend's
    copy on [obj_] and nothing else. *)
Definition copy_ctor (other : t) : outcome t :=
  let this := default in
  o ← ref_shm_strong_copy (obj_ this) (obj_ other);
  Done {| obj_ := o; owner_ := owner_ this |}.

(** Move constructor *)
Definition move_ctor (other : t) : outcome t :=
  let this := default in
  shm_strong_copy this other.

(** Copy assignment operator (equivalent to move).  Both operands are
    objects of the store, named by their addresses. *)
Definition copy_assign (this other : this_ptr) (σ : gmap this_ptr t)
  : outcome (gmap this_ptr t) :=
  if decide (this ≠ other) then
    match σ !! this, σ !! other with
    | Some x, Some y => x' ← shm_strong_copy x y; Done (<[this := x']> σ)
    | _, _ => Undefined
    end
  else Done σ.

(** Move assignment operator *)
Definition move_assign (this other : this_ptr) (σ : gmap this_ptr t)
  : outcome (gmap this_ptr t) :=
  if decide (this ≠ other) then
    match σ !! this, σ !! other with
    | Some x, Some y => x' ← shm_strong_copy x y; Done (<[this := x']> σ)
    | _, _ => Undefined
    end
  else Done σ.

(** Deserialize from a ShmDeserialize. *)
Definition shm_deserialize (this : t) (ar : ShmDeserialize) : t :=
  {| obj_ := ref_shm_deserialize (obj_ this) ar;
     owner_ := if unique F then Val false else owner_ this |}.

(** Deserialize from a TypedPointer<T> or a TypedAtomicPointer<T> *)
Definition shm_deserialize_pointer (this : t) (ar : TypedPointer) : outcome t :=
  deserial ← ShmDeserialize_of_pointer reg ar;
  Done (shm_deserialize this deserial).

(** Deserialize from a reference to the object *)
Definition shm_deserialize_obj (this : t) (ar : ObjRef) : t :=
  {| obj_ := ref_shm_deserialize_obj (obj_ this) ar;
     owner_ := if unique F then Val false else owner_ this |}.

(** Constructor. Deserialize from a TypedPointer<T> or a TypedAtomicPointer<T> *)
Definition ctor_pointer (ar : TypedPointer) : outcome t :=
  shm_deserialize_pointer default ar.

(** Constructor. Deserialize from an Archive. *)
Definition ctor_archive (ar : ptr) (alloc : Allocator) : t :=
  shm_deserialize default {| header_ := ar; alloc_ := alloc |}.

(** Constructor. Deserialize from a ShmDeserialize. *)
Definition ctor_deserialize (ar : ShmDeserialize) : t :=
  shm_deserialize default ar.

(** Constructor. Deserialize from an object. *)
Definition ctor_obj (ar : ObjRef) : t :=
  shm_deserialize_obj default ar.

(** Serialize to a TypedPointer<T> or to a TypedAtomicPointer<T> *)
Definition shm_serialize (sh : PointerShape) (this : t) : outcome TypedPointer :=
  ref_shm_serialize sh (obj_ this).

(** Construct an mptr with default allocator *)
Definition make_ptr_base (args : InitArgs) (w : World) : t * World :=
  let ptr := default in
  shm_init args ptr w.

End Flavoured.

(** *** Hash function *)

Context `{Hashable Pointee}.

(** What the expression handed to [std::hash<T>::operator()(const T &)] can
    denote in this header: an element, or a wrapper. *)
Inductive hash_operand :=
| ElementOperand (v : Pointee)
| WrapperOperand (w : t).

(** [std::hash<T>{}(x)].  The parameter is a [const T &]; the header declares
    no conversion from a wrapper to its element (the constructor from [T &]
    goes the other way and is explicit), so only an element is accepted:
    for a wrapper the call is ill-formed and there is no value. *)
Definition std_hash_call (x : hash_operand) : option size_t :=
  match x with
  | ElementOperand v => Some (std_hash v)
  | WrapperOperand _ => None
  end.

(** [size_t hash() const]: returns [std::hash<T>{}] applied to [*this];
    inside a member, [*this] is the wrapper object itself. *)
Definition hash (this : t) : option size_t :=
  std_hash_call (WrapperOperand this).

(** Hash function for mptr *)
Definition std_hash_mptr (obj : t) : option size_t := hash obj.

(** Hash function for uptr *)
Definition std_hash_uptr (obj : t) : option size_t := hash obj.

End Ops.

Arguments t R : clear implicits.

End smart_ptr_base.

(** Create a manual pointer, a unique pointer, a reference *)
Definition make_mptr {R : Type} `{RefBackend R} := smart_ptr_base.make_ptr_base (R := R) mptr.
Definition make_uptr {R : Type} `{RefBackend R} := smart_ptr_base.make_ptr_base (R := R) uptr.
Definition make_ref {R : Type} `{RefBackend R} := smart_ptr_base.make_ptr_base (R := R) Ref.

(** ** Vocabulary of the statements *)

Section Vocabulary.
Context {T : Type} `{Constructible T} `{Placement}.

(** The allocator an overload of [_RefNoShm::shm_init] records. *)
Definition init_allocator (reg : MemoryRegistry) (ia : _RefNoShm.init_args) : Allocator :=
  match ia with
  | _RefNoShm.InitDefault _ => GetDefaultAllocator reg
  | _RefNoShm.InitAlloc alloc _ => alloc
  | _RefNoShm.InitArchive _ alloc _ => alloc
  end.

(** The constructor arguments it forwards. *)
Definition init_arguments (ia : _RefNoShm.init_args) : Args :=
  match ia with
  | _RefNoShm.InitDefault args => args
  | _RefNoShm.InitAlloc _ args => args
  | _RefNoShm.InitArchive _ _ args => args
  end.

(** The address at which the object ends up: the preallocated storage, or
    the one the allocator picks. *)
Definition init_address (reg : MemoryRegistry) (ia : _RefNoShm.init_args) (m : Memory T) : ptr :=
  match ia with
  | _RefNoShm.InitArchive obj _ _ => obj
  | _ => place (init_allocator reg ia) (dom (objects m))
  end.

(** The one call of [FreePtr] that releases a live object at [p]. *)
Definition freed_once (a : Allocator) (p : ptr) : free_event :=
  {| freed_by := GetId a; freed_ptr := p; was_live := true |}.

(** A second call on the same, by then dead, address. *)
Definition freed_again (a : Allocator) (p : ptr) : free_event :=
  {| freed_by := GetId a; freed_ptr := p; was_live := false |}.

End Vocabulary.

(** [_RefNoShm::shm_destroy] reaches [FreePtr]: configured destructible and
    the stored pointer is not null. *)
Definition reaches_free (destructable : bool) (this : _RefNoShm.t) : bool :=
  destructable &&
  match _RefNoShm.obj_ this with
  | Val p => bool_decide (p ≠ nullptr)
  | Indeterminate => false
  end.

(** A wrapper that does not own: its flag is false, and its destructor
    returns whatever memory it is run on unchanged. *)
Definition not_owning {R : Type} `{RefBackend R} (F : flavour)
  (x : smart_ptr_base.t R) : Prop :=
  smart_ptr_base.owner_ x = Val false /\
  forall w : World, smart_ptr_base.dtor F x w = Done w.

(** The same of a wrapper built from the locator [ar], which exists once
    the registry resolves the allocator id of [ar]. *)
Definition not_owning_if_resolved {R : Type} `{RefBackend R} (F : flavour)
  (reg : MemoryRegistry) (ar : TypedPointer) (r : outcome (smart_ptr_base.t R)) : Prop :=
  match r with
  | Done x => not_owning F x
  | Undefined => GetAllocator reg (allocator_id_ ar) = None
  end.

(** An explicit destroy through an aliasing reference changes nothing:
    neither the wrapper nor the memory. *)
Definition destroy_is_noop {R : Type} `{RefBackend R}
  (r : smart_ptr_base.t R) (w : World) : Prop :=
  smart_ptr_base.shm_destroy Ref r w = Done (r, w).

(** Each of two wrappers over the same object destroys what it designates,
    the manual pointer by the explicit [shm_destroy] a manual pointer
    requires and the owner by its destructor, and no call of [FreePtr] finds
    a dead object. *)
Definition destroyed_without_double_free
  {T : Type} `{Constructible T} `{Placement}
  (mp u : smart_ptr_base.t _RefNoShm.t) (m : Memory T) : Prop :=
  exists m2 m3 : Memory T,
    smart_ptr_base.shm_destroy mptr mp m = Done (mp, m2) /\
    smart_ptr_base.dtor uptr u m2 = Done m3 /\
    no_double_free m3 = true.

(** ** States a wrapper can be in

    The wrappers a program can hold: a default-initialised one, and whatever
    the member functions and constructors of the header make of wrappers
    that can be held.  The two assignment operators and the move
    constructor all act through [shm_strong_copy]. *)

Section Reachability.
Context {R : Type} `{RefBackend R}.
Variable F : flavour.
Variable reg : MemoryRegistry.

Inductive reachable : smart_ptr_base.t R -> Prop :=
| reach_default :
    reachable smart_ptr_base.default
| reach_shm_init args this w :
    reachable this ->
    reachable (fst (smart_ptr_base.shm_init F reg args this w))
| reach_shm_destroy this w x w' :
    reachable this ->
    smart_ptr_base.shm_destroy F this w = Done (x, w') ->
    reachable x
| reach_shm_strong_copy this other x :
    reachable this -> reachable other ->
    smart_ptr_base.shm_strong_copy F this other = Done x ->
    reachable x
| reach_copy_ctor other x :
    reachable other ->
    smart_ptr_base.copy_ctor other = Done x ->
    reachable x
| reach_shm_deserialize this ar :
    reachable this ->
    reachable (smart_ptr_base.shm_deserialize F this ar)
| reach_shm_deserialize_pointer this ar x :
    reachable this ->
    smart_ptr_base.shm_deserialize_pointer F reg this ar = Done x ->
    reachable x
| reach_shm_deserialize_obj this ar :
    reachable this ->
    reachable (smart_ptr_base.shm_deserialize_obj F this ar).

End Reachability.


(** A wrapper over the external backend that holds the object at [p],
    allocated by [a], with ownership flag [o]. *)
Definition holds (p : ptr) (a : Allocator) (o : cell bool)
  : smart_ptr_base.t _RefNoShm.t :=
  {| smart_ptr_base.obj_ := {| _RefNoShm.obj_ := Val p; _RefNoShm.alloc_ := Val a |};
     smart_ptr_base.owner_ := o |}.

(** The record a call of [FreePtr] on [p] leaves, given the memory it ran on. *)
Definition free_record {T : Type} (a : Allocator) (p : ptr) (m : Memory T) : free_event :=
  {| freed_by := GetId a; freed_ptr := p;
     was_live := bool_decide (is_Some (objects m !! p)) |}.

(** ** Concrete instances, used to run the model *)

Module Demo.

(** A boxed integer: [T = int], built from one integer. *)
#[export] Instance int_constructible : Constructible Z :=
  {| Args := Z; construct := fun x => x |}.

#[export] Instance int_hashable : Hashable Z := fun x => x mod 2 ^ 64.

(** A bump strategy: the first address above the segment base and above
    every live object. *)
#[export] Instance bump : Placement := fun a live =>
  Z.max (segment_base a) (set_fold Z.max 0 live) + 1.

Definition seg : Allocator := {| allocator_id := 7; segment_base := 4096 |}.

Definition registry : MemoryRegistry :=
  {| allocators := {[ 7 := seg ]}; default_allocator := seg |}.

Definition empty_memory : Memory Z := {| objects := ∅; free_log := [] |}.

(** The argument list of [make_uptr<int>(5)]. *)
Definition box_5 : _RefNoShm.init_args (T := Z) := _RefNoShm.InitDefault 5.

(** The argument list of [make_uptr<int>(6)]. *)
Definition box_6 : _RefNoShm.init_args (T := Z) := _RefNoShm.InitDefault 6.

(** An exclusive owner over a boxed 5, and the memory holding the box. *)
Definition owner_of_5 : smart_ptr_base.t _RefNoShm.t * Memory Z :=
  make_uptr registry box_5 empty_memory.

(** A manual pointer over a boxed 5. *)
Definition manual_of_5 : smart_ptr_base.t _RefNoShm.t * Memory Z :=
  make_mptr registry box_5 empty_memory.

(** A self-describing element type for the embedded backend: a handle on a
    block of shared data that sits at its header address.  Its own destroy
    releases the data of the block. *)
Record block := {
  block_header : ptr;
  block_alloc : Allocator;
  header_owned : bool
}.

#[export] Instance block_eq_dec : EqDecision block.
Proof. solve_decision. Defined.

#[export] Instance block_container : ShmContainer block := {|
  ContainerWorld := gmap ptr Z;
  ContainerArgs := ptr * Allocator * Z;
  container_construct := fun '(p, a, v) s =>
    ({| block_header := p; block_alloc := a; header_owned := true |}, <[p := v]> s);
  GetShmDeserialize := fun c =>
    {| header_ := block_header c; alloc_ := block_alloc c |};
  container_shm_deserialize := fun _ ar =>
    {| block_header := header_ ar; block_alloc := alloc_ ar; header_owned := false |};
  container_shm_serialize := fun sh c =>
    {| shape := sh; allocator_id_ := GetId (block_alloc c);
       off_ := Convert (block_alloc c) (block_header c) |};
  SetHeaderOwned := fun c =>
    {| block_header := block_header c; block_alloc := block_alloc c; header_owned := true |};
  UnsetHeaderOwned := fun c =>
    {| block_header := block_header c; block_alloc := block_alloc c; header_owned := false |};
  container_shm_destroy := fun c s => (c, delete (block_header c) s)
|}.

(** A live block holding 42, and the memory it lives in. *)
Definition live_block : block :=
  {| block_header := 5000; block_alloc := seg; header_owned := true |}.

Definition block_memory : gmap ptr Z := {[ 5000 := 42 ]}.

End Demo.

Import Demo.

(** * Properties *)

(** ** The external backend *)

Section RefNoShmFacts.
Context {T : Type} `{Constructible T} `{Placement}.
Implicit Types (m : Memory T) (this : _RefNoShm.t).

(** Every overload of [shm_init] records the address and the allocator and
    leaves a constructed object at that address. *)
Lemma RefNoShm_shm_init_eq reg ia this m :
  _RefNoShm.shm_init reg ia this m =
    ({| _RefNoShm.obj_ := Val (init_address reg ia m);
        _RefNoShm.alloc_ := Val (init_allocator reg ia) |},
     {| objects := <[init_address reg ia m := construct (init_arguments ia)]> (objects m);
        free_log := free_log m |}).
Proof. destruct ia; reflexivity. Qed.

Lemma FreePtr_free_count a p m :
  free_count (FreePtr a p m) = S (free_count m).
Proof. unfold free_count, FreePtr; simpl. rewrite length_app; simpl. lia. Qed.

Lemma FreePtr_changes_memory a p m : FreePtr a p m ≠ m.
Proof.
  intros E. pose proof (FreePtr_free_count a p m) as L.
  rewrite E in L. lia.
Qed.

(** Freeing the object just constructed at [p]: it was live, and what
    remains is the memory without [p]. *)
Lemma FreePtr_after_construct a p v m :
  FreePtr a p {| objects := <[p := v]> (objects m); free_log := free_log m |} =
    {| objects := delete p (objects m);
       free_log := free_log m ++ [freed_once a p] |}.
Proof.
  unfold FreePtr, freed_once; simpl.
  rewrite delete_insert_eq, lookup_insert_eq.
  rewrite bool_decide_eq_true_2 by eauto. reflexivity.
Qed.

(** A second free of the same address finds no live object. *)
Lemma FreePtr_twice a p m :
  free_log (FreePtr a p (FreePtr a p m)) =
    free_log (FreePtr a p m) ++ [freed_again a p].
Proof.
  unfold freed_again; simpl. do 3 f_equal.
  apply bool_decide_eq_false_2. rewrite lookup_delete_eq.
  intros [x Hx]; discriminate.
Qed.

Lemma reaches_free_true d this :
  reaches_free d this = true <->
  d = true /\ exists p, _RefNoShm.obj_ this = Val p /\ p ≠ nullptr.
Proof.
  unfold reaches_free. destruct d, this as [[|p] al]; simpl; split.
  - discriminate.
  - intros [_ (p & E & _)]; discriminate.
  - intros Hb%bool_decide_eq_true. eauto.
  - intros [_ (q & E & Hq)]. injection E as <-. by apply bool_decide_eq_true.
  - discriminate.
  - intros [E _]; discriminate.
  - discriminate.
  - intros [E _]; discriminate.
Qed.

End RefNoShmFacts.

(** C5. For the externally-allocated backend [_RefNoShm], [shm_destroy]
    frees the object through the allocator ([FreePtr]) if and only if the
    backend is configured destructible and the stored pointer is not null;
    in every other case it is a no-op: the pointer and allocator members
    and the memory, hence the pointed-to object, are unchanged.  The call
    has no defined result exactly when it has to read a member that was
    never written. *)
Theorem RefNoShm_destroy_frees_iff_destructable_nonnull
  {T : Type} (d : bool) (this : _RefNoShm.t) (m : Memory T) :
  match _RefNoShm.shm_destroy d this m with
  | Done (this', m') =>
      this' = this /\
      if reaches_free d this
      then exists a p,
             _RefNoShm.alloc_ this = Val a /\ _RefNoShm.obj_ this = Val p /\
             m' = FreePtr a p m /\ free_count m' = S (free_count m)
      else m' = m
  | Undefined =>
      d = true /\
      (_RefNoShm.obj_ this = Indeterminate \/
       reaches_free d this = true /\ _RefNoShm.alloc_ this = Indeterminate)
  end.
Proof.
  destruct this as [[|p] [|a]], d; simpl; auto.
  all: unfold _RefNoShm.shm_destroy, reaches_free; simpl.
  all: destruct (decide (p ≠ nullptr)) as [Hp|Hp]; simpl.
  all: try rewrite (bool_decide_eq_true_2 _ Hp).
  all: try rewrite (bool_decide_eq_false_2 _ Hp).
  all: simpl; auto.
  split; [reflexivity | ].
  exists a, p. repeat split. apply FreePtr_free_count.
Qed.

(** ** The destructor *)

Section Destructor.
Context {R : Type} `{RefBackend R}.

(** What [~smart_ptr_base] does, by the two things it looks at. *)
Lemma dtor_cases (F : flavour) (this : smart_ptr_base.t R) (w : World) :
  smart_ptr_base.dtor F this w =
    if unique F then
      match smart_ptr_base.owner_ this with
      | Val true => snd <$> smart_ptr_base.shm_destroy F this w
      | Val false => Done w
      | Indeterminate => Undefined
      end
    else Done w.
Proof.
  unfold smart_ptr_base.dtor.
  destruct (unique F); [ | reflexivity].
  destruct (smart_ptr_base.owner_ this) as [ | [ | ]]; reflexivity.
Qed.

Lemma dtor_not_owner (F : flavour) (this : smart_ptr_base.t R) (w : World) :
  smart_ptr_base.owner_ this = Val false ->
  smart_ptr_base.dtor F this w = Done w.
Proof. intros E. rewrite dtor_cases, E. destruct (unique F); reflexivity. Qed.

Lemma dtor_not_unique (F : flavour) (this : smart_ptr_base.t R) (w : World) :
  unique F = false ->
  smart_ptr_base.dtor F this w = Done w.
Proof. intros E. rewrite dtor_cases, E. reflexivity. Qed.

End Destructor.

Section OwnerLifecycle.
Context {T : Type} `{Constructible T} `{Placement}.
Implicit Types (m : Memory T).

(** What [make_uptr] returns over the external backend. *)
Lemma make_uptr_eq reg ia m :
  make_uptr (R := _RefNoShm.t) reg ia m =
    ({| smart_ptr_base.obj_ :=
          {| _RefNoShm.obj_ := Val (init_address reg ia m);
             _RefNoShm.alloc_ := Val (init_allocator reg ia) |};
        smart_ptr_base.owner_ := Val true |},
     {| objects := <[init_address reg ia m := construct (init_arguments ia)]> (objects m);
        free_log := free_log m |}).
Proof.
  unfold make_uptr, smart_ptr_base.make_ptr_base, smart_ptr_base.shm_init. simpl.
  rewrite RefNoShm_shm_init_eq. reflexivity.
Qed.

(** An explicit destroy through a destructible wrapper whose pointer is not
    null: one call of [FreePtr], and the wrapper is as before. *)
Lemma shm_destroy_destructable (F : flavour) (u : smart_ptr_base.t _RefNoShm.t) p a m :
  destructable F = true ->
  smart_ptr_base.obj_ u = {| _RefNoShm.obj_ := Val p; _RefNoShm.alloc_ := Val a |} ->
  p ≠ nullptr ->
  smart_ptr_base.shm_destroy F u m = Done (u, FreePtr a p m).
Proof.
  intros Hd E Hp. destruct u as [o ow]; simpl in E; subst o.
  unfold smart_ptr_base.shm_destroy; simpl. rewrite Hd.
  unfold _RefNoShm.shm_destroy; simpl.
  destruct (decide (p ≠ nullptr)); [reflexivity | contradiction].
Qed.

(** Dropping an owner whose object is live at a non-null address. *)
Lemma uptr_dtor_eq (u : smart_ptr_base.t _RefNoShm.t) p a m :
  smart_ptr_base.obj_ u = {| _RefNoShm.obj_ := Val p; _RefNoShm.alloc_ := Val a |} ->
  smart_ptr_base.owner_ u = Val true ->
  p ≠ nullptr ->
  smart_ptr_base.dtor uptr u m = Done (FreePtr a p m).
Proof.
  intros E Ho Hp. rewrite dtor_cases, Ho. simpl.
  erewrite shm_destroy_destructable by eauto. reflexivity.
Qed.

End OwnerLifecycle.

(** C4. At the end of a wrapper's lifetime the destructor invokes destroy
    if and only if the wrapper is exclusive ([unique]) and its ownership
    flag is true; the destructor of a non-exclusive wrapper never destroys.
    An exclusive and destructible wrapper ([uptr]) that is initialised with
    [shm_init] and then dropped frees exactly one object, over either
    backend.
    - Over [_RefNoShm]: [FreePtr] is called once, on the live object that
      was constructed (no double free), and that object is gone afterwards
      (no leak).
    - Over [_RefShm]: the object is the one the element type constructed in
      the inline storage, and dropping the wrapper runs the element type's
      own destroy on it exactly once, with its header marked as owned; the
      memory after the drop is the memory that one run leaves.
    - Seen from the memory: for a destructible flavour holding a live
      object at a non-null address, the destructor frees that object when
      the flavour is exclusive and the flag is true, and leaves the memory
      untouched in every other case. *)
Theorem dtor_destroys_iff_exclusive_owner
  {T : Type} `{Constructible T} `{Placement}
  (reg : MemoryRegistry) (ia : _RefNoShm.init_args) (m : Memory T) :
  init_address reg ia m ≠ nullptr ->
  (forall (R : Type) (B : RefBackend R) (F : flavour)
          (this : smart_ptr_base.t R) (w : World),
     smart_ptr_base.dtor F this w =
       if unique F then
         match smart_ptr_base.owner_ this with
         | Val true => snd <$> smart_ptr_base.shm_destroy F this w
         | Val false => Done w
         | Indeterminate => Undefined
         end
       else Done w) /\
  (forall (R : Type) (B : RefBackend R) (d : bool)
          (this : smart_ptr_base.t R) (w : World),
     smart_ptr_base.dtor {| unique := false; destructable := d |} this w = Done w) /\
  (let p := init_address reg ia m in
   let a := init_allocator reg ia in
   let '(u, m1) := make_uptr (R := _RefNoShm.t) reg ia m in
   objects m1 !! p = Some (construct (init_arguments ia)) /\
   exists m2,
     smart_ptr_base.dtor uptr u m1 = Done m2 /\
     free_log m2 = free_log m ++ [freed_once a p] /\
     free_count m2 = S (free_count m) /\
     no_double_free m2 = no_double_free m /\
     objects m2 = delete p (objects m) /\
     objects m2 !! p = None /\
     (objects m !! p = None -> objects m2 = objects m)) /\
  (forall (C : Type) (HC : ShmContainer C) (args : ContainerArgs) (s : ContainerWorld),
     let c := fst (container_construct args s) in
     let s1 := snd (container_construct args s) in
     make_uptr (R := _RefShm.t C) reg args s =
       ({| smart_ptr_base.obj_ := {| _RefShm.obj_ := Val c |};
           smart_ptr_base.owner_ := Val true |}, s1) /\
     smart_ptr_base.deref (fst (make_uptr (R := _RefShm.t C) reg args s)) s1 = Done c /\
     smart_ptr_base.dtor uptr (fst (make_uptr (R := _RefShm.t C) reg args s)) s1 =
       Done (snd (container_shm_destroy (SetHeaderOwned c) s1))) /\
  (forall (F : flavour) (o : bool) (q : ptr) (b : Allocator) (v : T) (m0 : Memory T),
     destructable F = true -> q ≠ nullptr -> objects m0 !! q = Some v ->
     smart_ptr_base.dtor F (holds q b (Val o)) m0 =
       Done (if unique F && o
             then {| objects := delete q (objects m0);
                     free_log := free_log m0 ++ [freed_once b q] |}
             else m0)).
Proof.
  intros Hp. split; [ | split; [ | split; [ | split] ] ].
  - intros. apply dtor_cases.
  - intros. apply dtor_not_unique. reflexivity.
  - rewrite make_uptr_eq. cbv zeta. split; [apply lookup_insert_eq | ].
    eexists. split.
    + erewrite uptr_dtor_eq by (reflexivity || exact Hp).
      rewrite FreePtr_after_construct. reflexivity.
    + simpl. repeat split.
      * unfold free_count. simpl. rewrite length_app. simpl. lia.
      * unfold no_double_free. simpl. rewrite forallb_app. simpl.
        rewrite !andb_true_r. reflexivity.
      * apply lookup_delete_eq.
      * intros Hfresh. by apply delete_id.
  - intros C HC args s c s1. subst c s1.
    unfold make_uptr, smart_ptr_base.make_ptr_base, smart_ptr_base.shm_init. simpl.
    unfold _RefShm.shm_init.
    destruct (container_construct args s) as [c s1]. simpl.
    split; [reflexivity | ]. split; [reflexivity | ].
    rewrite dtor_cases. simpl.
    unfold smart_ptr_base.shm_destroy. simpl. unfold _RefShm.shm_destroy. simpl.
    destruct (container_shm_destroy (SetHeaderOwned c) s1). reflexivity.
  - intros F o q b v m0 Hd Hq Hlive.
    rewrite dtor_cases. unfold holds. simpl.
    destruct (unique F); [ | reflexivity].
    destruct o; [ | reflexivity]. simpl.
    erewrite shm_destroy_destructable by (reflexivity || eassumption).
    simpl. unfold FreePtr, freed_once.
    rewrite bool_decide_eq_true_2 by eauto. reflexivity.
Qed.

(** The scenario of the boxed 5: the owner dereferences to 5, is dropped,
    and the free counter goes from 0 to 1.  And an owner of a block holding
    42: its data is in memory after the initialisation and gone after the
    drop. *)
Lemma dtor_destroys_iff_exclusive_owner_witness :
  (smart_ptr_base.deref (fst Demo.owner_of_5) (snd Demo.owner_of_5) = Done 5 /\
   exists m2,
     smart_ptr_base.dtor uptr (fst Demo.owner_of_5) (snd Demo.owner_of_5) = Done m2 /\
     free_count m2 = 1%nat /\ objects m2 = ∅) /\
  (snd (make_uptr (R := _RefShm.t Demo.block) Demo.registry (5000, Demo.seg, 42) ∅)
     = Demo.block_memory /\
   smart_ptr_base.dtor uptr
     (fst (make_uptr (R := _RefShm.t Demo.block) Demo.registry (5000, Demo.seg, 42) ∅))
     Demo.block_memory = Done ∅).
Proof.
  destruct (dtor_destroys_iff_exclusive_owner (T := Z)
              Demo.registry Demo.box_5 Demo.empty_memory)
    as (_ & _ & Hdrop & Hshm & _).
  - vm_compute. discriminate.
  - split.
    + split; [vm_compute; reflexivity | ].
      destruct Hdrop as (_ & m2 & Hd & _ & Hc & _ & Ho & _).
      exists m2. split; [exact Hd | ]. split; [exact Hc | ].
      rewrite Ho. apply delete_empty.
    + destruct (Hshm Demo.block Demo.block_container (5000, Demo.seg, 42) ∅)
        as (Hmk & _ & Hb).
      split; [reflexivity | ].
      refine (eq_trans Hb _). vm_compute. reflexivity.
Defined.

(** C10. The explicit [shm_destroy] of the wrapper neither clears the
    ownership flag nor nulls the stored pointer.  For an exclusive and
    destructible wrapper that was initialised (flag true) and then
    explicitly destroyed, the flag is still true and the pointer still
    designates the freed address; so the destructor at the end of scope
    invokes the backend destroy again, and [FreePtr] is called a second time
    on the object that is already freed. *)
Theorem explicit_destroy_keeps_owner_flag
  {T : Type} `{Constructible T} `{Placement}
  (reg : MemoryRegistry) (ia : _RefNoShm.init_args) (m : Memory T) :
  init_address reg ia m ≠ nullptr ->
  let p := init_address reg ia m in
  let a := init_allocator reg ia in
  let '(u, m1) := make_uptr (R := _RefNoShm.t) reg ia m in
  smart_ptr_base.owner_ u = Val true /\
  exists m2,
    smart_ptr_base.shm_destroy uptr u m1 = Done (u, m2) /\
    smart_ptr_base.get u = Val p /\
    objects m2 !! p = None /\
    free_log m2 = free_log m ++ [freed_once a p] /\
    exists m3,
      smart_ptr_base.dtor uptr u m2 = Done m3 /\
      smart_ptr_base.dtor uptr u m2 = snd <$> smart_ptr_base.shm_destroy uptr u m2 /\
      free_log m3 = free_log m ++ [freed_once a p; freed_again a p] /\
      no_double_free m3 = false.
Proof.
  intros Hp p a. rewrite make_uptr_eq. split; [reflexivity | ].
  eexists. split; [ | split; [reflexivity | ] ].
  - erewrite shm_destroy_destructable by (reflexivity || exact Hp).
    rewrite FreePtr_after_construct. reflexivity.
  - split; [apply lookup_delete_eq | ]. split; [reflexivity | ].
    eexists. split; [ | split].
    + erewrite uptr_dtor_eq by (reflexivity || exact Hp). reflexivity.
    + rewrite dtor_cases. reflexivity.
    + split.
      * simpl. rewrite <- app_assoc. simpl. do 3 f_equal. unfold freed_again.
        f_equal. apply bool_decide_eq_false_2. rewrite lookup_delete_eq.
        intros [x Hx]; discriminate.
      * unfold no_double_free. simpl. rewrite lookup_delete_eq.
        rewrite !forallb_app. simpl.
        rewrite !andb_false_r. reflexivity.
Qed.

(** The boxed 5, destroyed by hand and then dropped: two calls of
    [FreePtr] on address 4097, the second on a dead object. *)
Lemma explicit_destroy_keeps_owner_flag_witness :
  exists m2 m3,
    smart_ptr_base.shm_destroy uptr (fst Demo.owner_of_5) (snd Demo.owner_of_5)
      = Done (fst Demo.owner_of_5, m2) /\
    smart_ptr_base.dtor uptr (fst Demo.owner_of_5) m2 = Done m3 /\
    free_log m3 = [freed_once Demo.seg 4097; freed_again Demo.seg 4097].
Proof.
  pose proof (explicit_destroy_keeps_owner_flag (T := Z)
                Demo.registry Demo.box_5 Demo.empty_memory) as Hx.
  assert (Hnn : init_address Demo.registry Demo.box_5 Demo.empty_memory ≠ nullptr).
  { vm_compute. discriminate. }
  specialize (Hx Hnn).
  destruct Hx as (_ & m2 & Hd & _ & _ & _ & m3 & Hdrop & _ & Hlog & _).
  exists m2, m3. split; [exact Hd | ]. split; [exact Hdrop | exact Hlog].
Defined.

(** ** Serialisation *)

Section Roundtrip.
Context {T : Type} `{Constructible T} `{Placement}.
Implicit Types (m : Memory T).

(** Resolving the locator an allocator produced gives the pointer back,
    provided the registry knows the allocator under its id. *)
Lemma resolve_convert reg sh a p :
  GetAllocator reg (GetId a) = Some a ->
  ShmDeserialize_of_pointer reg
      {| shape := sh; allocator_id_ := GetId a; off_ := Convert a p |}
    = Done {| header_ := p; alloc_ := a |}.
Proof.
  intros Hreg. unfold ShmDeserialize_of_pointer; simpl. rewrite Hreg.
  unfold ConvertOffset, Convert. do 2 f_equal. lia.
Qed.

(** A manual pointer that aliases an owner's object, explicitly destroyed
    before the owner is dropped: the owner's destructor then frees the same
    address a second time.  The two wrappers share one object and there is
    no count of them. *)
Lemma manual_destroy_then_owner_drop reg ia m :
  init_address reg ia m ≠ nullptr ->
  let p := init_address reg ia m in
  let a := init_allocator reg ia in
  let '(u, m1) := make_uptr (R := _RefNoShm.t) reg ia m in
  let mp := smart_ptr_base.ctor_deserialize mptr {| header_ := p; alloc_ := a |} in
  exists m2 m3,
    smart_ptr_base.shm_destroy mptr mp m1 = Done (mp, m2) /\
    smart_ptr_base.dtor uptr u m2 = Done m3 /\
    free_log m3 = free_log m ++ [freed_once a p; freed_again a p].
Proof.
  intros Hp p a. rewrite make_uptr_eq. cbv zeta.
  eexists _, _. split; [ | split].
  - erewrite shm_destroy_destructable by (reflexivity || exact Hp).
    rewrite FreePtr_after_construct. reflexivity.
  - erewrite uptr_dtor_eq by (reflexivity || exact Hp). reflexivity.
  - simpl. rewrite <- app_assoc. simpl. do 3 f_equal. unfold freed_again.
    f_equal. apply bool_decide_eq_false_2. rewrite lookup_delete_eq.
    intros [x Hx]; discriminate.
Qed.

End Roundtrip.

(** C7, as stated, fails in its last part.  The owner of the boxed 5 is
    serialised into the locator (7, 1) and a manual pointer is deserialised
    from it; the two wrappers cannot be destroyed independently: once the
    manual pointer has destroyed the object, the owner's destructor frees
    the same address again. *)
Lemma roundtrip_destroy_both_double_frees :
  smart_ptr_base.shm_serialize Plain (fst Demo.owner_of_5)
    = Done {| shape := Plain; allocator_id_ := 7; off_ := 1 |} /\
  match smart_ptr_base.ctor_pointer (R := _RefNoShm.t) mptr Demo.registry
          {| shape := Plain; allocator_id_ := 7; off_ := 1 |} with
  | Done mp =>
      ~ destroyed_without_double_free mp (fst Demo.owner_of_5) (snd Demo.owner_of_5)
  | Undefined => False
  end.
Proof.
  split; [vm_compute; reflexivity | ].
  assert (E : smart_ptr_base.ctor_pointer (R := _RefNoShm.t) mptr Demo.registry
                {| shape := Plain; allocator_id_ := 7; off_ := 1 |}
              = Done (holds 4097 Demo.seg Indeterminate)).
  { vm_compute. reflexivity. }
  rewrite E. intros (m2 & m3 & H1 & H2 & H3).
  vm_compute in H1. injection H1 as <-.
  vm_compute in H2. injection H2 as <-.
  vm_compute in H3. discriminate H3.
Qed.

(** C7, amended.  Round trip.  An initialised exclusive owner over the
    external backend is serialised into a locator, which stores the
    allocator's id and the allocator's conversion of the raw pointer; a
    manual pointer deserialised from that locator designates the same
    address and dereferences to the same value as the owner.  The manual
    pointer aliases the owner's object and the two are not independent.
    When the lifetimes of both wrappers simply end, in either order, the
    object is freed once: the destructor of the manual pointer never frees
    and the owner's frees once.  When the manual pointer destroys the object
    explicitly, the owner's destructor afterwards frees the same address a
    second time. *)
Theorem serialize_deserialize_roundtrip
  {T : Type} `{Constructible T} `{Placement}
  (reg : MemoryRegistry) (ia : _RefNoShm.init_args) (sh : PointerShape) (m : Memory T) :
  init_address reg ia m ≠ nullptr ->
  GetAllocator reg (GetId (init_allocator reg ia)) = Some (init_allocator reg ia) ->
  let p := init_address reg ia m in
  let a := init_allocator reg ia in
  let ar := {| shape := sh; allocator_id_ := GetId a; off_ := Convert a p |} in
  let '(u, m1) := make_uptr (R := _RefNoShm.t) reg ia m in
  smart_ptr_base.shm_serialize sh u = Done ar /\
  exists mp,
    smart_ptr_base.ctor_pointer mptr reg ar = Done mp /\
    smart_ptr_base.get mp = smart_ptr_base.get u /\
    smart_ptr_base.deref u m1 = Done (construct (init_arguments ia)) /\
    smart_ptr_base.deref mp m1 = smart_ptr_base.deref u m1 /\
    smart_ptr_base.dtor mptr mp m1 = Done m1 /\
    (exists m2,
       smart_ptr_base.dtor uptr u m1 = Done m2 /\
       smart_ptr_base.dtor mptr mp m2 = Done m2 /\
       free_log m2 = free_log m ++ [freed_once a p] /\
       no_double_free m2 = no_double_free m) /\
    (exists m2 m3,
       smart_ptr_base.shm_destroy mptr mp m1 = Done (mp, m2) /\
       smart_ptr_base.dtor uptr u m2 = Done m3 /\
       free_log m3 = free_log m ++ [freed_once a p; freed_again a p] /\
       no_double_free m3 = false /\
       ~ destroyed_without_double_free mp u m1).
Proof.
  intros Hp Hreg p a ar. rewrite make_uptr_eq. split; [reflexivity | ].
  eexists. split.
  { unfold smart_ptr_base.ctor_pointer, smart_ptr_base.shm_deserialize_pointer.
    subst ar. rewrite (resolve_convert reg sh a p Hreg). reflexivity. }
  split; [reflexivity | ].
  assert (Hd : smart_ptr_base.deref (R := _RefNoShm.t)
                 {| smart_ptr_base.obj_ :=
                      {| _RefNoShm.obj_ := Val p; _RefNoShm.alloc_ := Val a |};
                    smart_ptr_base.owner_ := Val true |}
                 {| objects := <[p := construct (init_arguments ia)]> (objects m);
                    free_log := free_log m |}
               = Done (construct (init_arguments ia))).
  { unfold smart_ptr_base.deref; simpl. unfold _RefNoShm.deref; simpl.
    rewrite lookup_insert_eq. reflexivity. }
  split; [exact Hd | ]. split; [reflexivity | ].
  split; [apply dtor_not_unique; reflexivity | ].
  split.
  - eexists. split; [ | split; [apply dtor_not_unique; reflexivity | ] ].
    + erewrite uptr_dtor_eq by (reflexivity || exact Hp).
      rewrite FreePtr_after_construct. reflexivity.
    + split; [reflexivity | ].
      unfold no_double_free. simpl. rewrite forallb_app. simpl.
      rewrite !andb_true_r. reflexivity.
  - set (mfreed := {| objects := delete p (objects m);
                      free_log := free_log m ++ [freed_once a p] |} : Memory T).
    assert (H1 : smart_ptr_base.shm_destroy (R := _RefNoShm.t) mptr
                   (holds p a Indeterminate)
                   {| objects := <[p := construct (init_arguments ia)]> (objects m);
                      free_log := free_log m |}
                 = Done (holds p a Indeterminate, mfreed)).
    { erewrite shm_destroy_destructable by (reflexivity || exact Hp).
      rewrite FreePtr_after_construct. reflexivity. }
    assert (H2 : smart_ptr_base.dtor (R := _RefNoShm.t) uptr
                   (holds p a (Val true)) mfreed
                 = Done (FreePtr a p mfreed)).
    { apply uptr_dtor_eq; [reflexivity | reflexivity | exact Hp]. }
    assert (Hlog : free_log (FreePtr a p mfreed)
                   = free_log m ++ [freed_once a p; freed_again a p]).
    { simpl. rewrite <- app_assoc. simpl. do 3 f_equal. unfold freed_again.
      f_equal. apply bool_decide_eq_false_2. rewrite lookup_delete_eq.
      intros [x Hx]; discriminate. }
    assert (Hdf : no_double_free (FreePtr a p mfreed) = false).
    { unfold no_double_free. rewrite Hlog, forallb_app. simpl.
      apply andb_false_r. }
    exists mfreed, (FreePtr a p mfreed).
    split; [exact H1 | ]. split; [exact H2 | ]. split; [exact Hlog | ].
    split; [exact Hdf | ].
    intros (m2 & m3 & G1 & G2 & G3).
    pose proof (eq_trans (eq_sym H1) G1) as E1. injection E1 as <-.
    pose proof (eq_trans (eq_sym H2) G2) as E2. injection E2 as <-.
    rewrite Hdf in G3. discriminate G3.
Qed.

(** The boxed 5 seen through a second wrapper: the locator is
    (7, 1), both wrappers dereference to 5, and after both are gone the
    free counter is 1. *)
Lemma serialize_deserialize_roundtrip_witness :
  smart_ptr_base.shm_serialize Plain (fst Demo.owner_of_5)
    = Done {| shape := Plain; allocator_id_ := 7; off_ := 1 |} /\
  exists (mp : smart_ptr_base.t _RefNoShm.t) (m2 : Memory Z),
    smart_ptr_base.ctor_pointer mptr Demo.registry
        {| shape := Plain; allocator_id_ := 7; off_ := 1 |} = Done mp /\
    smart_ptr_base.deref mp (snd Demo.owner_of_5) = Done 5 /\
    smart_ptr_base.dtor uptr (fst Demo.owner_of_5) (snd Demo.owner_of_5) = Done m2 /\
    smart_ptr_base.dtor mptr mp m2 = Done m2 /\
    free_log m2 = [freed_once Demo.seg 4097].
Proof.
  pose proof (serialize_deserialize_roundtrip (T := Z)
                Demo.registry Demo.box_5 Plain Demo.empty_memory) as Hx.
  assert (Hnn : init_address Demo.registry Demo.box_5 Demo.empty_memory ≠ nullptr).
  { vm_compute. discriminate. }
  assert (Hreg : GetAllocator Demo.registry
                   (GetId (init_allocator Demo.registry Demo.box_5))
                 = Some (init_allocator Demo.registry Demo.box_5)).
  { vm_compute. reflexivity. }
  specialize (Hx Hnn Hreg).
  destruct Hx as (Hs & mp & Hc & _ & Hdu & Hdm & _
                  & (m2 & Hdrop & Hdrop' & Hlog & _) & _).
  split; [exact Hs | ].
  exists mp, m2. split; [exact Hc | ]. split; [ | split; [exact Hdrop | ] ].
  - exact (eq_trans Hdm Hdu).
  - split; [exact Hdrop' | exact Hlog].
Defined.

(** ** Ownership *)

(** C3. For an exclusive ([unique]) wrapper, construction or
    deserialisation from a locator ([TypedPointer] or [TypedAtomicPointer],
    the two shapes of [ar]), from a resolution context ([ShmDeserialize],
    also built from an archive), or from a live object reference sets the
    ownership flag to false; the destructor of such a wrapper does not
    destroy the object.  From a locator there is a wrapper whenever the
    registry resolves the locator's allocator id. *)
Theorem deserialized_wrapper_never_owns
  {R : Type} `{RefBackend R} (d : bool) (reg : MemoryRegistry)
  (this : smart_ptr_base.t R) (ar : TypedPointer) (sd : ShmDeserialize)
  (obj : ObjRef) (archive : ptr) (alloc : Allocator) :
  let F := {| unique := true; destructable := d |} in
  not_owning F (smart_ptr_base.shm_deserialize F this sd) /\
  not_owning F (smart_ptr_base.shm_deserialize_obj F this obj) /\
  not_owning_if_resolved F reg ar (smart_ptr_base.shm_deserialize_pointer F reg this ar) /\
  not_owning F (smart_ptr_base.ctor_deserialize F sd) /\
  not_owning F (smart_ptr_base.ctor_obj F obj) /\
  not_owning F (smart_ptr_base.ctor_archive F archive alloc) /\
  not_owning_if_resolved F reg ar (smart_ptr_base.ctor_pointer F reg ar).
Proof.
  intros F.
  assert (Hn : forall x, smart_ptr_base.owner_ x = Val false -> not_owning F x).
  { intros x Hx. split; [exact Hx | intros w; by apply dtor_not_owner]. }
  assert (Hr : forall x,
             not_owning_if_resolved F reg ar
               (smart_ptr_base.shm_deserialize_pointer F reg x ar)).
  { intros x.
    unfold not_owning_if_resolved, smart_ptr_base.shm_deserialize_pointer,
      ShmDeserialize_of_pointer.
    destruct (GetAllocator reg (allocator_id_ ar)) as [a0| ]; simpl; [ | reflexivity].
    apply Hn. reflexivity. }
  repeat apply conj; try (apply Hn; reflexivity); apply Hr.
Qed.

(** C9. The default constructor performs no initialisation: an exclusive
    wrapper that is default-constructed and never initialised or
    deserialised holds an indeterminate ownership flag, so the destructor,
    which decides on that flag, reads a member that was never written and
    its behaviour is not defined by the code. *)
Theorem default_constructed_owner_flag_indeterminate
  {R : Type} `{RefBackend R} (d : bool) (w : World) :
  smart_ptr_base.owner_ (smart_ptr_base.default (R := R)) = Indeterminate /\
  smart_ptr_base.dtor {| unique := true; destructable := d |}
    (smart_ptr_base.default (R := R)) w = Undefined.
Proof. split; reflexivity. Qed.

(** C8. Self-assignment and self-move-assignment are identity operations:
    [w = w], in the copy or in the move form, leaves the object at that
    address, and every other object, as it was. *)
Theorem self_assignment_is_identity
  {R : Type} `{RefBackend R} (F : flavour)
  (this : smart_ptr_base.this_ptr) (σ : gmap smart_ptr_base.this_ptr (smart_ptr_base.t R)) :
  smart_ptr_base.copy_assign F this this σ = Done σ /\
  smart_ptr_base.move_assign F this this σ = Done σ.
Proof.
  unfold smart_ptr_base.copy_assign, smart_ptr_base.move_assign.
  destruct (decide (this ≠ this)) as [Hne | _]; [contradiction | ].
  split; reflexivity.
Qed.

(** ** Copy and move *)

Section StrongCopy.
Context {R : Type} `{RefBackend R}.
Implicit Types (this other x : smart_ptr_base.t R).

(** [shm_strong_copy] of an exclusive wrapper copies the flag of the source. *)
Lemma shm_strong_copy_owner (d : bool) this other x :
  smart_ptr_base.shm_strong_copy {| unique := true; destructable := d |} this other = Done x ->
  smart_ptr_base.owner_ x = smart_ptr_base.owner_ other.
Proof.
  unfold smart_ptr_base.shm_strong_copy; simpl.
  destruct (ref_shm_strong_copy _ _); simpl; [ | discriminate].
  intros [= <-]. reflexivity.
Qed.

(** So does the move constructor. *)
Lemma move_ctor_owner (d : bool) other x :
  smart_ptr_base.move_ctor {| unique := true; destructable := d |} other = Done x ->
  smart_ptr_base.owner_ x = smart_ptr_base.owner_ other.
Proof. apply shm_strong_copy_owner. Qed.

(** So do the two assignment operators between distinct objects, and they
    leave the source as it was. *)
Lemma copy_assign_owner (d : bool) (a b : smart_ptr_base.this_ptr)
  (σ σ' : gmap smart_ptr_base.this_ptr (smart_ptr_base.t R)) other :
  a ≠ b -> σ !! b = Some other ->
  smart_ptr_base.copy_assign {| unique := true; destructable := d |} a b σ = Done σ' ->
  σ' !! b = Some other /\
  exists x, σ' !! a = Some x /\ smart_ptr_base.owner_ x = smart_ptr_base.owner_ other.
Proof.
  intros Hab Hb. unfold smart_ptr_base.copy_assign.
  destruct (decide (a ≠ b)); [ | contradiction].
  rewrite Hb. destruct (σ !! a) as [y| ]; [ | discriminate].
  destruct (smart_ptr_base.shm_strong_copy _ y other) as [x| ] eqn:E; simpl; [ | discriminate].
  intros [= <-]. split.
  - rewrite lookup_insert_ne by exact Hab. exact Hb.
  - exists x. split; [apply lookup_insert_eq | ].
    eapply shm_strong_copy_owner; exact E.
Qed.

Lemma move_assign_owner (d : bool) (a b : smart_ptr_base.this_ptr)
  (σ σ' : gmap smart_ptr_base.this_ptr (smart_ptr_base.t R)) other :
  a ≠ b -> σ !! b = Some other ->
  smart_ptr_base.move_assign {| unique := true; destructable := d |} a b σ = Done σ' ->
  σ' !! b = Some other /\
  exists x, σ' !! a = Some x /\ smart_ptr_base.owner_ x = smart_ptr_base.owner_ other.
Proof. apply copy_assign_owner. Qed.

(** The copy constructor does not: whatever the source, the flag of the
    new wrapper is never written. *)
Lemma copy_ctor_owner other x :
  smart_ptr_base.copy_ctor other = Done x ->
  smart_ptr_base.owner_ x = Indeterminate.
Proof.
  unfold smart_ptr_base.copy_ctor; simpl.
  destruct (ref_shm_strong_copy _ _); simpl; [ | discriminate].
  intros [= <-]. reflexivity.
Qed.

End StrongCopy.

(** C2, at the owner of the boxed 5.  The source owns its object.  The
    copy constructor aliases the same object but leaves the ownership flag
    of the new wrapper unwritten, where the move constructor copies it:
    the copy-constructed wrapper does not carry the flag of its source,
    and its destructor decides on a member that was never written. *)
Theorem copy_ctor_leaves_owner_flag_unwritten :
  let src := fst Demo.owner_of_5 in
  smart_ptr_base.owner_ src = Val true /\
  smart_ptr_base.copy_ctor src =
    Done {| smart_ptr_base.obj_ := smart_ptr_base.obj_ src;
            smart_ptr_base.owner_ := Indeterminate |} /\
  smart_ptr_base.move_ctor uptr src = Done src /\
  smart_ptr_base.dtor uptr
    {| smart_ptr_base.obj_ := smart_ptr_base.obj_ src;
       smart_ptr_base.owner_ := Indeterminate |} (snd Demo.owner_of_5) = Undefined.
Proof. vm_compute. repeat split. Qed.

(** ** Hashing *)

(** [hash()] never yields a value: its operand is the wrapper. *)
Lemma hash_operand_is_wrapper {R : Type} `{RefBackend R} `{Hashable Pointee}
  (this : smart_ptr_base.t R) :
  smart_ptr_base.hash this = None.
Proof. reflexivity. Qed.

(** C1, at the wrappers of the boxed 5.  The element is 5 and its own hash
    is 5, which is what [std::hash<T>] yields for the dereferenced element;
    but [hash()] hands [*this], the wrapper, to [std::hash<T>], so neither
    [std::hash<mptr<T>>] nor [std::hash<uptr<T>>] yields the hash of the
    pointed-to object. *)
Theorem hash_applied_to_wrapper_not_element :
  smart_ptr_base.deref (fst Demo.manual_of_5) (snd Demo.manual_of_5) = Done 5 /\
  smart_ptr_base.std_hash_call
    (smart_ptr_base.ElementOperand (H := _RefNoShm.backend (T := Z)) 5) = Some 5 /\
  smart_ptr_base.std_hash_mptr (fst Demo.manual_of_5) = None /\
  smart_ptr_base.std_hash_uptr (fst Demo.owner_of_5) = None.
Proof. vm_compute. repeat split. Qed.

(** ** Aliasing references *)

Section RefShmFacts.
Context {C : Type} `{ShmContainer C}.

(** What an aliasing reference over the embedded backend holds, once built
    from the live object [ar]: the element's own deserialisation of [ar]. *)
Lemma RefShm_ctor_obj_eq (F : flavour) (ar : C) :
  smart_ptr_base.ctor_obj (R := _RefShm.t C) F ar =
    {| smart_ptr_base.obj_ :=
         {| _RefShm.obj_ :=
              Val (container_shm_deserialize Indeterminate (GetShmDeserialize ar)) |};
       smart_ptr_base.owner_ := if unique F then Val false else Indeterminate |}.
Proof. reflexivity. Qed.

(** [_RefShm::shm_destroy] marks the header as owned or not, as the wrapper
    is configured, and then always runs the element's own destroy. *)
Lemma RefShm_shm_destroy_eq (d : bool) (c : C) (s : ContainerWorld) :
  _RefShm.shm_destroy d {| _RefShm.obj_ := Val c |} s =
    Done ({| _RefShm.obj_ :=
               Val (fst (container_shm_destroy
                           (if d then SetHeaderOwned c else UnsetHeaderOwned c) s)) |},
          snd (container_shm_destroy
                 (if d then SetHeaderOwned c else UnsetHeaderOwned c) s)).
Proof.
  unfold _RefShm.shm_destroy; simpl.
  destruct (container_shm_destroy _ s); reflexivity.
Qed.

End RefShmFacts.

(** C6, as stated, fails for the embedded backend: an aliasing reference
    built from the live block holding 42 and then destroyed leaves a memory
    in which the data of the block is gone. *)
Lemma Ref_destroy_over_RefShm_not_noop :
  ~ destroy_is_noop
      (smart_ptr_base.ctor_obj (R := _RefShm.t Demo.block) Ref Demo.live_block)
      Demo.block_memory.
Proof.
  unfold destroy_is_noop. intros E.
  assert (Hs : snd <$> smart_ptr_base.shm_destroy Ref
                 (smart_ptr_base.ctor_obj (R := _RefShm.t Demo.block) Ref Demo.live_block)
                 Demo.block_memory = Done Demo.block_memory).
  { rewrite E. reflexivity. }
  apply (f_equal (fun o => match o with
                           | Done s => s !! 5000
                           | Undefined => None
                           end)) in Hs.
  vm_compute in Hs. discriminate Hs.
Qed.

(** C6, amended.  An aliasing reference ([Ref]: non-exclusive,
    non-destructible) over the external backend [_RefNoShm], built from an
    existing live object, yields that object's address from [get()] and its
    current value on dereference, and destroy on it is a no-op that leaves
    the memory, hence the object, unmodified.  Over the embedded backend
    [_RefShm] the reference dereferences to the element's own
    deserialisation of the object, and destroy is not a no-op: it clears
    the header-owned mark and then runs the element's own destroy. *)
Theorem Ref_from_live_object
  {T : Type} `{Constructible T} `{Placement}
  (p : ptr) (v : T) (m : Memory T) :
  objects m !! p = Some v ->
  (let r := smart_ptr_base.ctor_obj (R := _RefNoShm.t) Ref p in
   smart_ptr_base.get r = Val p /\
   smart_ptr_base.deref r m = Done v /\
   destroy_is_noop r m) /\
  (forall (C : Type) (HC : ShmContainer C) (ar : C) (s : ContainerWorld),
     let r := smart_ptr_base.ctor_obj (R := _RefShm.t C) Ref ar in
     let c := container_shm_deserialize Indeterminate (GetShmDeserialize ar) in
     smart_ptr_base.deref r s = Done c /\
     smart_ptr_base.shm_destroy Ref r s =
       Done ({| smart_ptr_base.obj_ :=
                  {| _RefShm.obj_ :=
                       Val (fst (container_shm_destroy (UnsetHeaderOwned c) s)) |};
                smart_ptr_base.owner_ := Indeterminate |},
             snd (container_shm_destroy (UnsetHeaderOwned c) s))).
Proof.
  intros Hlive. split.
  - cbv zeta. split; [reflexivity | ]. split.
    + unfold smart_ptr_base.deref; simpl. unfold _RefNoShm.deref; simpl.
      rewrite Hlive. reflexivity.
    + reflexivity.
  - intros C HC ar s r c. split; [reflexivity | ].
    subst r. rewrite RefShm_ctor_obj_eq.
    unfold smart_ptr_base.shm_destroy; simpl.
    rewrite RefShm_shm_destroy_eq. reflexivity.
Qed.

(** A reference to the boxed 5 that another wrapper owns. *)
Lemma Ref_from_live_object_witness :
  let r := smart_ptr_base.ctor_obj (R := _RefNoShm.t) Ref 4097 in
  smart_ptr_base.deref r (snd Demo.owner_of_5) = Done 5 /\
  smart_ptr_base.shm_destroy Ref r (snd Demo.owner_of_5) = Done (r, snd Demo.owner_of_5).
Proof.
  assert (Hlive : objects (snd Demo.owner_of_5) !! 4097 = Some 5).
  { vm_compute. reflexivity. }
  destruct (Ref_from_live_object (T := Z) 4097 5 (snd Demo.owner_of_5) Hlive)
    as ((_ & Hd & Hn) & _).
  split; [exact Hd | exact Hn].
Defined.

(** * Further properties of the wrapper over the external backend *)

Section WrapperFacts.
Context {T : Type} `{Constructible T} `{Placement}.
Implicit Types (m : Memory T) (this x : smart_ptr_base.t _RefNoShm.t).

(** [shm_init], for every flavour and overload. *)
Lemma wrapper_shm_init_eq F reg ia this m :
  smart_ptr_base.shm_init F reg ia this m =
    (holds (init_address reg ia m) (init_allocator reg ia)
       (if unique F then Val true else smart_ptr_base.owner_ this),
     {| objects := <[init_address reg ia m := construct (init_arguments ia)]> (objects m);
        free_log := free_log m |}).
Proof.
  unfold smart_ptr_base.shm_init. simpl.
  rewrite RefNoShm_shm_init_eq. reflexivity.
Qed.

(** The explicit destroy never changes the wrapper it is called on. *)
Lemma wrapper_shm_destroy_same F this m x m' :
  smart_ptr_base.shm_destroy F this m = Done (x, m') -> x = this.
Proof.
  destruct this as [[o al] ow].
  unfold smart_ptr_base.shm_destroy; simpl. unfold _RefNoShm.shm_destroy; simpl.
  destruct (destructable F); simpl.
  - destruct o as [ |p]; simpl; [discriminate | ].
    destruct (decide (p ≠ nullptr)); simpl.
    + destruct al as [ |a]; simpl; [discriminate | ]. intros [= <- _]. reflexivity.
    + intros [= <- _]. reflexivity.
  - intros [= <- _]. reflexivity.
Qed.

Lemma free_log_FreePtr a p m :
  free_log (FreePtr a p m) = free_log m ++ [free_record a p m].
Proof. reflexivity. Qed.

Lemma free_record_dead a p m :
  objects m !! p = None -> free_record a p m = freed_again a p.
Proof.
  intros E. unfold free_record, freed_again. f_equal.
  apply bool_decide_eq_false_2. rewrite E. intros [x Hx]; discriminate.
Qed.

Lemma free_record_live a p v m :
  objects m !! p = Some v -> free_record a p m = freed_once a p.
Proof.
  intros E. unfold free_record, freed_once. f_equal.
  apply bool_decide_eq_true_2. eauto.
Qed.

(** Two owners of the same object, dropped one after the other. *)
Lemma drop_two_owners p a m :
  p ≠ nullptr ->
  exists m2 m3,
    smart_ptr_base.dtor uptr (holds p a (Val true)) m = Done m2 /\
    smart_ptr_base.dtor uptr (holds p a (Val true)) m2 = Done m3 /\
    objects m3 = delete p (objects m) /\
    free_log m3 = free_log m ++ [free_record a p m; freed_again a p] /\
    no_double_free m3 = false.
Proof.
  intros Hp. exists (FreePtr a p m), (FreePtr a p (FreePtr a p m)).
  assert (Hdead : objects (FreePtr a p m) !! p = None) by apply lookup_delete_eq.
  split; [by apply uptr_dtor_eq | ]. split; [by apply uptr_dtor_eq | ].
  split; [ | split].
  - simpl. apply delete_id. apply lookup_delete_eq.
  - rewrite free_log_FreePtr, (free_record_dead _ _ _ Hdead), free_log_FreePtr.
    rewrite <- app_assoc. reflexivity.
  - unfold no_double_free.
    rewrite free_log_FreePtr, (free_record_dead _ _ _ Hdead), forallb_app. simpl.
    apply andb_false_r.
Qed.

End WrapperFacts.

(** X1. The move constructor does not transfer ownership.  Moving from an
    exclusive owner whose flag is true gives a second wrapper equal to the
    source, member for member: same address from [get()], flag true; the
    source keeps its flag.  When both reach the end of their lifetime the
    allocator is asked to free the same address twice, the second time
    with no live object there. *)
Theorem move_ctor_duplicates_ownership
  {T : Type} `{Constructible T} `{Placement}
  (p : ptr) (a : Allocator) (m : Memory T) :
  p ≠ nullptr ->
  let u := holds p a (Val true) in
  exists v,
    smart_ptr_base.move_ctor uptr u = Done v /\
    smart_ptr_base.get v = smart_ptr_base.get u /\
    smart_ptr_base.owner_ v = Val true /\
    exists m2 m3,
      smart_ptr_base.dtor uptr v m = Done m2 /\
      smart_ptr_base.dtor uptr u m2 = Done m3 /\
      free_log m3 = free_log m ++ [free_record a p m; freed_again a p] /\
      no_double_free m3 = false.
Proof.
  intros Hp u. exists u. split; [reflexivity | ]. split; [reflexivity | ].
  split; [reflexivity | ].
  destruct (drop_two_owners p a m Hp) as (m2 & m3 & H1 & H2 & _ & Hlog & Hdf).
  exists m2, m3. auto.
Qed.

(** The owner of the boxed 5 moved from, both dropped. *)
Lemma move_ctor_duplicates_ownership_witness :
  exists v m2 m3,
    smart_ptr_base.move_ctor uptr (fst Demo.owner_of_5) = Done v /\
    smart_ptr_base.dtor uptr v (snd Demo.owner_of_5) = Done m2 /\
    smart_ptr_base.dtor uptr (fst Demo.owner_of_5) m2 = Done m3 /\
    free_log m3 = [freed_once Demo.seg 4097; freed_again Demo.seg 4097].
Proof.
  assert (Hp : (4097 : ptr) ≠ nullptr) by (vm_compute; discriminate).
  destruct (move_ctor_duplicates_ownership (T := Z) 4097 Demo.seg (snd Demo.owner_of_5) Hp)
    as (v & Hv & _ & _ & m2 & m3 & H1 & H2 & Hlog & _).
  exists v, m2, m3. split; [exact Hv | ]. split; [exact H1 | ]. split; [exact H2 | ].
  rewrite Hlog. vm_compute. reflexivity.
Defined.

(** X2. Assignment between two distinct exclusive owners, copy or move
    form.  The destination takes over the pointer, allocator and flag of
    the source, and the object it held before is not destroyed.  When both
    wrappers then reach the end of their lifetime, the source's object is
    freed twice and the destination's former object is still live: no
    wrapper designates it any more. *)
Theorem assignment_between_owners
  {T : Type} `{Constructible T} `{Placement}
  (ta tb : smart_ptr_base.this_ptr) (pa pb : ptr) (aa ab : Allocator) (va : T)
  (σ : gmap smart_ptr_base.this_ptr (smart_ptr_base.t _RefNoShm.t)) (m : Memory T) :
  ta ≠ tb -> pa ≠ pb -> pb ≠ nullptr ->
  σ !! ta = Some (holds pa aa (Val true)) ->
  σ !! tb = Some (holds pb ab (Val true)) ->
  objects m !! pa = Some va ->
  exists σ',
    smart_ptr_base.copy_assign uptr ta tb σ = Done σ' /\
    smart_ptr_base.move_assign uptr ta tb σ = Done σ' /\
    σ' !! ta = Some (holds pb ab (Val true)) /\
    σ' !! tb = Some (holds pb ab (Val true)) /\
    exists m2 m3,
      smart_ptr_base.dtor uptr (holds pb ab (Val true)) m = Done m2 /\
      smart_ptr_base.dtor uptr (holds pb ab (Val true)) m2 = Done m3 /\
      objects m3 !! pa = Some va /\
      free_log m3 = free_log m ++ [free_record ab pb m; freed_again ab pb].
Proof.
  intros Hab Hp Hnn Ha Hb Hlive.
  exists (<[ta := holds pb ab (Val true)]> σ).
  assert (Hc : smart_ptr_base.copy_assign uptr ta tb σ
               = Done (<[ta := holds pb ab (Val true)]> σ)).
  { unfold smart_ptr_base.copy_assign.
    destruct (decide (ta ≠ tb)); [ | contradiction].
    rewrite Ha, Hb. reflexivity. }
  split; [exact Hc | ]. split; [exact Hc | ].
  split; [apply lookup_insert_eq | ].
  split; [rewrite lookup_insert_ne by exact Hab; exact Hb | ].
  destruct (drop_two_owners pb ab m Hnn) as (m2 & m3 & H1 & H2 & Ho & Hlog & _).
  exists m2, m3. split; [exact H1 | ]. split; [exact H2 | ]. split; [ | exact Hlog].
  rewrite Ho. rewrite lookup_delete_ne by (intros E; apply Hp; symmetry; exact E).
  exact Hlive.
Qed.

(** Two boxes, 5 at 4097 and 6 at 4098, owned by the wrappers at 10 and 20;
    after [*10 = *20] and both drops, 4098 is freed twice and 5 is still
    in memory. *)
Lemma assignment_between_owners_witness :
  let σ : gmap smart_ptr_base.this_ptr (smart_ptr_base.t _RefNoShm.t) :=
    <[10 := holds 4097 Demo.seg (Val true)]> {[20 := holds 4098 Demo.seg (Val true)]} in
  let m : Memory Z := {| objects := <[4097 := 5]> {[4098 := 6]}; free_log := [] |} in
  exists σ' m2 m3,
    smart_ptr_base.copy_assign uptr 10 20 σ = Done σ' /\
    σ' !! 10 = Some (holds 4098 Demo.seg (Val true)) /\
    smart_ptr_base.dtor uptr (holds 4098 Demo.seg (Val true)) m = Done m2 /\
    smart_ptr_base.dtor uptr (holds 4098 Demo.seg (Val true)) m2 = Done m3 /\
    objects m3 !! 4097 = Some 5 /\
    free_log m3 = [freed_once Demo.seg 4098; freed_again Demo.seg 4098].
Proof.
  intros σ m.
  assert (H1 : (10 : smart_ptr_base.this_ptr) ≠ 20) by (vm_compute; discriminate).
  assert (H2 : (4097 : ptr) ≠ 4098) by (vm_compute; discriminate).
  assert (H3 : (4098 : ptr) ≠ nullptr) by (vm_compute; discriminate).
  assert (H4 : σ !! 10 = Some (holds 4097 Demo.seg (Val true))) by (vm_compute; reflexivity).
  assert (H5 : σ !! 20 = Some (holds 4098 Demo.seg (Val true))) by (vm_compute; reflexivity).
  assert (H6 : objects m !! 4097 = Some 5) by (vm_compute; reflexivity).
  destruct (assignment_between_owners (T := Z) 10 20 4097 4098 Demo.seg Demo.seg 5 σ m
              H1 H2 H3 H4 H5 H6)
    as (σ' & Hc & _ & Ha & _ & m2 & m3 & Hd1 & Hd2 & Hl & Hlog).
  exists σ', m2, m3. repeat (split; [assumption | ]).
  rewrite Hlog. vm_compute. reflexivity.
Defined.

(** X3. [shm_init] on a wrapper that already holds an object does not
    release that object.  An exclusive owner that holds a live object and is
    initialised again, at another address, and then dropped frees only the
    second object; the first is still live and the wrapper no longer
    designates it. *)
Theorem reinit_leaks_first_object
  {T : Type} `{Constructible T} `{Placement}
  (reg : MemoryRegistry) (ia : _RefNoShm.init_args)
  (p1 : ptr) (a1 : Allocator) (o : cell bool) (v1 : T) (m : Memory T) :
  objects m !! p1 = Some v1 ->
  init_address reg ia m ≠ nullptr ->
  init_address reg ia m ≠ p1 ->
  let p2 := init_address reg ia m in
  let a2 := init_allocator reg ia in
  exists m2 m3 : Memory T,
    smart_ptr_base.shm_init (R := _RefNoShm.t) uptr reg ia (holds p1 a1 o) m
      = (holds p2 a2 (Val true), m2) /\
    smart_ptr_base.dtor uptr (holds p2 a2 (Val true)) m2 = Done m3 /\
    objects m3 !! p1 = Some v1 /\
    objects m3 !! p2 = None /\
    free_log m3 = free_log m ++ [freed_once a2 p2].
Proof.
  intros Hlive Hnn Hne p2 a2. eexists _, _.
  split; [apply wrapper_shm_init_eq | ]. split.
  - erewrite uptr_dtor_eq by (reflexivity || exact Hnn).
    rewrite FreePtr_after_construct. reflexivity.
  - simpl. split; [ | split; [apply lookup_delete_eq | reflexivity] ].
    rewrite lookup_delete_ne by exact Hne. exact Hlive.
Qed.

(** A box of 5, then a box of 6 through the same owner: addresses 4097
    and 4098; after the drop 5 is still there. *)
Lemma reinit_leaks_first_object_witness :
  exists m2 m3 : Memory Z,
    smart_ptr_base.shm_init (R := _RefNoShm.t) uptr Demo.registry
      Demo.box_6 (fst Demo.owner_of_5) (snd Demo.owner_of_5)
      = (holds 4098 Demo.seg (Val true), m2) /\
    smart_ptr_base.dtor uptr (holds 4098 Demo.seg (Val true)) m2 = Done m3 /\
    objects m3 !! 4097 = Some 5 /\
    free_log m3 = [freed_once Demo.seg 4098].
Proof.
  assert (H1 : objects (snd Demo.owner_of_5) !! 4097 = Some 5) by (vm_compute; reflexivity).
  assert (H2 : init_address Demo.registry Demo.box_6
                 (snd Demo.owner_of_5) ≠ nullptr) by (vm_compute; discriminate).
  assert (H3 : init_address Demo.registry Demo.box_6
                 (snd Demo.owner_of_5) ≠ 4097) by (vm_compute; discriminate).
  destruct (reinit_leaks_first_object (T := Z) Demo.registry
              Demo.box_6 4097 Demo.seg (Val true) 5
              (snd Demo.owner_of_5) H1 H2 H3)
    as (m2 & m3 & Hi & Hd & Hl & _ & Hlog).
  exists m2, m3. split; [exact Hi | ]. split; [exact Hd | ]. split; [exact Hl | exact Hlog].
Defined.

(** X4. A manual pointer ([mptr]) made by [make_mptr].  Its ownership flag
    is never written; its destructor leaves the object live; one explicit
    [shm_destroy] frees the object with a single call of [FreePtr] and
    leaves the wrapper as it was, so [get()] still yields the freed
    address and dereferencing it afterwards has no defined result. *)
Theorem mptr_needs_explicit_destroy
  {T : Type} `{Constructible T} `{Placement}
  (reg : MemoryRegistry) (ia : _RefNoShm.init_args) (m : Memory T) :
  init_address reg ia m ≠ nullptr ->
  let p := init_address reg ia m in
  let a := init_allocator reg ia in
  let mp := fst (make_mptr (R := _RefNoShm.t) reg ia m) in
  let m1 := snd (make_mptr (R := _RefNoShm.t) reg ia m) in
  smart_ptr_base.owner_ mp = Indeterminate /\
  smart_ptr_base.deref mp m1 = Done (construct (init_arguments ia)) /\
  smart_ptr_base.dtor mptr mp m1 = Done m1 /\
  exists m2 : Memory T,
    smart_ptr_base.shm_destroy mptr mp m1 = Done (mp, m2) /\
    free_log m2 = free_log m ++ [freed_once a p] /\
    smart_ptr_base.get mp = Val p /\
    smart_ptr_base.deref mp m2 = Undefined.
Proof.
  intros Hp p a mp m1. subst mp m1.
  unfold make_mptr, smart_ptr_base.make_ptr_base.
  rewrite wrapper_shm_init_eq. simpl. fold p a.
  split; [reflexivity | ]. split.
  { unfold smart_ptr_base.deref; simpl. unfold _RefNoShm.deref; simpl.
    rewrite lookup_insert_eq. reflexivity. }
  split; [reflexivity | ].
  eexists. split.
  - erewrite shm_destroy_destructable by (reflexivity || exact Hp).
    rewrite FreePtr_after_construct. reflexivity.
  - split; [reflexivity | ]. split; [reflexivity | ].
    unfold smart_ptr_base.deref; simpl. unfold _RefNoShm.deref; simpl.
    rewrite lookup_delete_eq. reflexivity.
Qed.

(** The manual pointer over the boxed 5. *)
Lemma mptr_needs_explicit_destroy_witness :
  smart_ptr_base.dtor mptr (fst Demo.manual_of_5) (snd Demo.manual_of_5)
    = Done (snd Demo.manual_of_5) /\
  exists m2 : Memory Z,
    smart_ptr_base.shm_destroy mptr (fst Demo.manual_of_5) (snd Demo.manual_of_5)
      = Done (fst Demo.manual_of_5, m2) /\
    free_log m2 = [freed_once Demo.seg 4097] /\
    smart_ptr_base.deref (fst Demo.manual_of_5) m2 = Undefined.
Proof.
  assert (Hp : init_address Demo.registry Demo.box_5 Demo.empty_memory ≠ nullptr).
  { vm_compute. discriminate. }
  destruct (mptr_needs_explicit_destroy (T := Z) Demo.registry Demo.box_5
              Demo.empty_memory Hp)
    as (_ & _ & Hd & m2 & Hx & Hlog & _ & Hdang).
  split; [exact Hd | ]. exists m2.
  split; [exact Hx | ]. split; [exact Hlog | exact Hdang].
Defined.

(** X5. An object made through [make_ref] is never released through that
    reference: after the explicit [shm_destroy] and after the destructor
    the object is still live at its address and [FreePtr] was not called. *)
Theorem make_ref_never_frees
  {T : Type} `{Constructible T} `{Placement}
  (reg : MemoryRegistry) (ia : _RefNoShm.init_args) (m : Memory T) :
  let p := init_address reg ia m in
  let r := fst (make_ref (R := _RefNoShm.t) reg ia m) in
  let m1 := snd (make_ref (R := _RefNoShm.t) reg ia m) in
  smart_ptr_base.get r = Val p /\
  smart_ptr_base.shm_destroy Ref r m1 = Done (r, m1) /\
  smart_ptr_base.dtor Ref r m1 = Done m1 /\
  objects m1 !! p = Some (construct (init_arguments ia)) /\
  free_log m1 = free_log m.
Proof.
  intros p r m1. subst r m1.
  unfold make_ref, smart_ptr_base.make_ptr_base.
  rewrite wrapper_shm_init_eq. simpl.
  repeat split. apply lookup_insert_eq.
Qed.

(** X6. A wrapper constructed from a live object reference has a pointer
    but no allocator.  Serialising it has no defined result, whatever the
    flavour; destroying it has no defined result when the flavour is
    destructible and the address is not null, and is a no-op otherwise. *)
Theorem wrapper_from_object_has_no_allocator
  {T : Type} `{Constructible T} `{Placement}
  (F : flavour) (sh : PointerShape) (p : ptr) (m : Memory T) :
  let x := smart_ptr_base.ctor_obj (R := _RefNoShm.t) F p in
  smart_ptr_base.get x = Val p /\
  smart_ptr_base.shm_serialize sh x = Undefined /\
  smart_ptr_base.shm_destroy F x m =
    if destructable F && bool_decide (p ≠ nullptr) then Undefined else Done (x, m).
Proof.
  intros x. split; [reflexivity | ]. split; [reflexivity | ].
  unfold smart_ptr_base.shm_destroy; simpl. unfold _RefNoShm.shm_destroy; simpl.
  destruct (destructable F); simpl; [ | reflexivity].
  destruct (decide (p ≠ nullptr)) as [Hp|Hp].
  - rewrite (bool_decide_eq_true_2 _ Hp). reflexivity.
  - rewrite (bool_decide_eq_false_2 _ Hp). reflexivity.
Qed.

(** X7. Deserialising over an exclusive owner gives up the object it
    owned without destroying it.  Dropped as it is, the owner frees its
    object; once deserialised from a context or from an object reference,
    its pointer is the new one, and its destructor leaves the memory as it
    is: the object that was owned stays live and [FreePtr] is not called. *)
Theorem deserialize_over_owner_leaks
  {T : Type} `{Constructible T} `{Placement}
  (p : ptr) (a : Allocator) (v : T) (sd : ShmDeserialize) (q : ptr) (m : Memory T) :
  p ≠ nullptr ->
  objects m !! p = Some v ->
  let u := holds p a (Val true) in
  let u1 := smart_ptr_base.shm_deserialize uptr u sd in
  let u2 := smart_ptr_base.shm_deserialize_obj (R := _RefNoShm.t) uptr u q in
  (exists m' : Memory T,
     smart_ptr_base.dtor uptr u m = Done m' /\
     objects m' !! p = None /\
     free_log m' = free_log m ++ [freed_once a p]) /\
  smart_ptr_base.get u1 = Val (header_ sd) /\
  smart_ptr_base.get u2 = Val q /\
  smart_ptr_base.dtor uptr u1 m = Done m /\
  smart_ptr_base.dtor uptr u2 m = Done m.
Proof.
  intros Hp Hlive u u1 u2. split; [ | repeat split].
  exists (FreePtr a p m). split; [by apply uptr_dtor_eq | ].
  split; [apply lookup_delete_eq | ].
  rewrite free_log_FreePtr, (free_record_live _ _ _ _ Hlive). reflexivity.
Qed.

(** The owner of the boxed 5, re-targeted at address 9000. *)
Lemma deserialize_over_owner_leaks_witness :
  let u1 := smart_ptr_base.shm_deserialize uptr (fst Demo.owner_of_5)
              {| header_ := 9000; alloc_ := Demo.seg |} in
  smart_ptr_base.get u1 = Val 9000 /\
  smart_ptr_base.dtor uptr u1 (snd Demo.owner_of_5) = Done (snd Demo.owner_of_5).
Proof.
  assert (Hp : (4097 : ptr) ≠ nullptr) by (vm_compute; discriminate).
  assert (Hl : objects (snd Demo.owner_of_5) !! 4097 = Some 5) by (vm_compute; reflexivity).
  destruct (deserialize_over_owner_leaks (T := Z) 4097 Demo.seg 5
              {| header_ := 9000; alloc_ := Demo.seg |} 9000 (snd Demo.owner_of_5) Hp Hl)
    as (_ & Hg & _ & Hd & _).
  split; [exact Hg | exact Hd].
Defined.

(** * Invariants over the states a wrapper can be in *)

(** X8. For a non-exclusive flavour ([mptr], [Ref]) and any backend, no
    constructor and no member function ever writes the ownership flag: it
    is indeterminate in every state a wrapper can be in, and the destructor
    of such a wrapper returns the memory unchanged. *)
Theorem non_unique_never_writes_owner
  {R : Type} `{RefBackend R} (F : flavour) (reg : MemoryRegistry)
  (x : smart_ptr_base.t R) :
  unique F = false ->
  reachable F reg x ->
  smart_ptr_base.owner_ x = Indeterminate /\
  forall w : World, smart_ptr_base.dtor F x w = Done w.
Proof.
  intros Hu Hr. split; [ | intros w; by apply dtor_not_unique].
  induction Hr as [ | args this w _ IH | this w x w' _ IH E | this other x _ IH _ _ E
                  | other x _ _ E | this ar _ IH | this ar x _ IH E | this ar _ IH ].
  - reflexivity.
  - unfold smart_ptr_base.shm_init.
    destruct (ref_shm_init reg args (smart_ptr_base.obj_ this) w). simpl.
    rewrite Hu. exact IH.
  - unfold smart_ptr_base.shm_destroy in E.
    destruct (ref_shm_destroy _ _ _) as [[o w0]| ]; simpl in E; [ | discriminate].
    injection E as <- _. exact IH.
  - unfold smart_ptr_base.shm_strong_copy in E.
    destruct (ref_shm_strong_copy _ _); simpl in E; [ | discriminate].
    injection E as <-. simpl. rewrite Hu. exact IH.
  - by eapply copy_ctor_owner.
  - simpl. rewrite Hu. exact IH.
  - unfold smart_ptr_base.shm_deserialize_pointer in E.
    destruct (ShmDeserialize_of_pointer reg ar); simpl in E; [ | discriminate].
    injection E as <-. simpl. rewrite Hu. exact IH.
  - simpl. rewrite Hu. exact IH.
Qed.

(** The manual pointer over the boxed 5. *)
Lemma non_unique_never_writes_owner_witness :
  smart_ptr_base.owner_ (fst Demo.manual_of_5) = Indeterminate.
Proof.
  refine (proj1 (non_unique_never_writes_owner (R := _RefNoShm.t) mptr Demo.registry
                   (fst Demo.manual_of_5) _ _)).
  - reflexivity.
  - exact (reach_shm_init (H := _RefNoShm.backend (T := Z)) mptr Demo.registry
             Demo.box_5 smart_ptr_base.default Demo.empty_memory
             (reach_default mptr Demo.registry)).
Defined.



(** X10. Over the external backend, whatever the flavour, the allocator of
    a wrapper is never written without its pointer.  So in every state a
    wrapper can be in, serialisation into a locator is defined exactly when
    the allocator has been written. *)
Theorem serialize_defined_iff_allocator_written
  {T : Type} `{Constructible T} `{Placement}
  (F : flavour) (reg : MemoryRegistry) (sh : PointerShape)
  (x : smart_ptr_base.t _RefNoShm.t) :
  reachable F reg x ->
  (_RefNoShm.alloc_ (smart_ptr_base.obj_ x) <> Indeterminate ->
   _RefNoShm.obj_ (smart_ptr_base.obj_ x) <> Indeterminate) /\
  (smart_ptr_base.shm_serialize sh x = Undefined <->
   _RefNoShm.alloc_ (smart_ptr_base.obj_ x) = Indeterminate).
Proof.
  intros Hr.
  assert (Inv : _RefNoShm.alloc_ (smart_ptr_base.obj_ x) <> Indeterminate ->
                _RefNoShm.obj_ (smart_ptr_base.obj_ x) <> Indeterminate).
  { induction Hr as [ | args this w _ IH | this w x w' _ IH E | this other x _ _ _ IH E
                    | other x _ IH E | this ar _ IH | this ar x _ IH E | this ar _ IH ].
    - intros Hc. contradiction Hc. reflexivity.
    - rewrite wrapper_shm_init_eq. simpl. discriminate.
    - apply wrapper_shm_destroy_same in E. subst x. exact IH.
    - unfold smart_ptr_base.shm_strong_copy in E. simpl in E.
      injection E as <-. simpl. exact IH.
    - unfold smart_ptr_base.copy_ctor in E. simpl in E.
      injection E as <-. simpl. exact IH.
    - simpl. discriminate.
    - unfold smart_ptr_base.shm_deserialize_pointer in E.
      destruct (ShmDeserialize_of_pointer reg ar); simpl in E; [ | discriminate].
      injection E as <-. simpl. discriminate.
    - simpl. discriminate. }
  split; [exact Inv | ].
  destruct x as [[o al] ow]. simpl in *.
  unfold smart_ptr_base.shm_serialize; simpl. unfold _RefNoShm.shm_serialize; simpl.
  destruct al as [ |a]; simpl.
  - split; reflexivity.
  - destruct o as [ |p]; simpl.
    + exfalso. apply Inv; [discriminate | reflexivity].
    + split; discriminate.
Qed.

(** The owner of the boxed 5 can be serialised. *)
Lemma serialize_defined_iff_allocator_written_witness :
  smart_ptr_base.shm_serialize Plain (fst Demo.owner_of_5) <> Undefined.
Proof.
  destruct (serialize_defined_iff_allocator_written (T := Z) uptr Demo.registry Plain
              (fst Demo.owner_of_5)
              (reach_shm_init (H := _RefNoShm.backend (T := Z)) uptr Demo.registry
                 Demo.box_5 smart_ptr_base.default Demo.empty_memory
                 (reach_default uptr Demo.registry)))
    as [_ Hs].
  intros E. apply Hs in E. vm_compute in E. discriminate E.
Defined.

(** * Copying over either backend *)

(** X11. For a non-exclusive flavour ([mptr], [Ref]) the copy constructor
    and the move constructor build the same wrapper, whatever the backend
    and the source; the two differ only in the ownership flag of an
    exclusive flavour. *)
Theorem copy_ctor_is_move_ctor_unless_unique
  {R : Type} `{RefBackend R} (F : flavour) (other : smart_ptr_base.t R) :
  (unique F = false ->
   smart_ptr_base.copy_ctor other = smart_ptr_base.move_ctor F other) /\
  (forall x y,
     smart_ptr_base.copy_ctor other = Done x ->
     smart_ptr_base.move_ctor F other = Done y ->
     smart_ptr_base.obj_ x = smart_ptr_base.obj_ y /\
     smart_ptr_base.get x = smart_ptr_base.get y).
Proof.
  unfold smart_ptr_base.copy_ctor, smart_ptr_base.move_ctor,
    smart_ptr_base.shm_strong_copy, smart_ptr_base.get. simpl.
  destruct (ref_shm_strong_copy ref_default (smart_ptr_base.obj_ other)) as [o| ]; simpl.
  - split.
    + intros ->. reflexivity.
    + intros x y [= <-] [= <-]. split; reflexivity.
  - split; [reflexivity | discriminate].
Qed.

(** X12. Over the embedded backend, copying a wrapper of a non-exclusive
    flavour whose inline object is constructed is the same as constructing
    a wrapper from that object by reference: both deserialise the new
    inline object from what [GetShmDeserialize] of the source object gives.
    Copying from a source whose inline object was never constructed has no
    defined result. *)
Theorem RefShm_copy_is_construction_from_object
  {C : Type} `{ShmContainer C} (F : flavour) (o : C) :
  unique F = false ->
  let other : smart_ptr_base.t (_RefShm.t C) :=
    {| smart_ptr_base.obj_ := {| _RefShm.obj_ := Val o |};
       smart_ptr_base.owner_ := Indeterminate |} in
  smart_ptr_base.copy_ctor other = Done (smart_ptr_base.ctor_obj F o) /\
  smart_ptr_base.move_ctor F other = Done (smart_ptr_base.ctor_obj F o) /\
  smart_ptr_base.copy_ctor (smart_ptr_base.default (R := _RefShm.t C)) = Undefined /\
  smart_ptr_base.move_ctor F (smart_ptr_base.default (R := _RefShm.t C)) = Undefined.
Proof.
  intros Hu other. subst other.
  unfold smart_ptr_base.copy_ctor, smart_ptr_base.move_ctor,
    smart_ptr_base.shm_strong_copy, smart_ptr_base.ctor_obj,
    smart_ptr_base.shm_deserialize_obj. simpl.
  rewrite Hu. repeat split.
Qed.

(** A reference to the live block, copied. *)
Lemma RefShm_copy_is_construction_from_object_witness :
  smart_ptr_base.copy_ctor
    {| smart_ptr_base.obj_ := {| _RefShm.obj_ := Val Demo.live_block |};
       smart_ptr_base.owner_ := Indeterminate |}
  = Done (smart_ptr_base.ctor_obj Ref Demo.live_block).
Proof.
  exact (proj1 (RefShm_copy_is_construction_from_object (C := Demo.block) Ref
                  Demo.live_block eq_refl)).
Defined.
